(** * A shallow embedding of [pipeline.py]

    The pipeline reads three flat files, replaces three staging relations
    with their rows and runs four SQL statements ([TRANSFORM_SQL]) that
    populate a star schema.  Relations are lists of records (a list keeps
    the heap order of a table, and duplicates), SQL statements are
    functions on the database, and the Python orchestration is written in
    a small state-and-exception monad whose state is the database together
    with the log of the run. *)

From Stdlib Require Import List Bool ZArith QArith String Permutation Sorted Lia.
Import ListNotations.

Local Open Scope Z_scope.

(** ** Scalar types of the columns *)

(** A calendar date ([DATE]) and a time stamp ([TIMESTAMP]): a date and the
    number of seconds elapsed since midnight. *)
Record date := mkDate { year : Z; month : Z; day : Z }.
Record timestamp := mkTimestamp { ts_date : date; ts_seconds : Z }.

Definition date_eqb (a b : date) : bool :=
  (year a =? year b) && (month a =? month b) && (day a =? day b).

Definition timestamp_eqb (a b : timestamp) : bool :=
  date_eqb (ts_date a) (ts_date b) && (ts_seconds a =? ts_seconds b).

(** [t::date] *)
Definition cast_date (t : timestamp) : date := ts_date t.

(** [DATE_TRUNC('month', d)]: midnight of the first day of the month of [d]. *)
Definition DATE_TRUNC_month (d : date) : timestamp :=
  mkTimestamp (mkDate (year d) (month d) 1) 0.

(** The [metadata] column holds what [json.dumps] wrote: a JSON object,
    kept here as its list of members.  [m ->> k] is the text of member
    [k], or NULL. *)
Definition json := list (string * string).

Fixpoint json_get_text (m : json) (k : string) : option string :=
  match m with
  | [] => None
  | (k', v) :: m' => if String.eqb k k' then Some v else json_get_text m' k
  end.

(** ** Staging relations (schema [stg]) *)

(** The field prefixes are the aliases the statements give the relations:
    [e] for [stg.app_events_raw], [c] for [stg.customers_raw], [s] for
    [stg.subscriptions_raw], [p] for [analytics.dim_plan], [d] for
    [analytics.dim_date]. *)
Record app_events_raw := mk_app_event {
  e_event_timestamp : timestamp;
  e_customer_id     : string;
  e_event_type      : string;
  e_feature_name    : string;
  e_metadata        : json
}.

Record customers_raw := mk_customer {
  c_customer_id     : string;
  c_company_name    : string;
  c_country         : string;
  c_address         : string;
  c_signup_date     : date;
  c_subscription_id : string
}.

(** Amounts are exact rationals; [end_date] is the one column the
    statements test for NULL. *)
Record subscriptions_raw := mk_subscription {
  s_subscription_id : string;
  s_plan_name       : string;
  s_period          : string;
  s_amount          : Q;
  s_currency        : string;
  s_status          : string;
  s_start_date      : date;
  s_end_date        : option date
}.

(** ** Analytics relations (schema [analytics]) *)

Record dim_customer_row := mk_dim_customer {
  dc_customer_id  : string;
  dc_company_name : string;
  dc_country      : string;
  dc_address      : string;
  dc_signup_date  : date
}.

(** [plan_key] is not in the column list of the INSERT of the plan
    statement, and the subscription fact reads it: it is filled by the
    column default, the next value of a sequence. *)
Record dim_plan_row := mk_dim_plan {
  p_plan_key    : Z;
  p_plan_name   : string;
  p_period      : string;
  p_base_amount : Q;
  p_currency    : string
}.

Record dim_date_row := mk_dim_date {
  d_date_key  : Z;
  d_full_date : date
}.

Record fact_app_usage_row := mk_fact_app_usage {
  fu_event_timestamp : timestamp;
  fu_date_key        : Z;
  fu_customer_id     : string;
  fu_event_type      : string;
  fu_feature_name    : string;
  fu_device_type     : option string
}.

Record fact_subscription_events_row := mk_fact_subscription_events {
  fs_date_key        : Z;
  fs_customer_id     : string;
  fs_plan_key        : Z;
  fs_subscription_id : string;
  fs_mrr_amount      : Q;
  fs_churn_flag      : bool;
  fs_is_new_mrr_flag : bool;
  fs_status          : string
}.

(** ** The database *)

(** Modelled from the spec: [schema/schema.sql] is not part of the sources.
    The relations and their columns are the ones the statements name and
    section 6 of the specification lists; [schema_present] records that
    the create-if-absent definitions have been applied, and a relation
    that does not exist yet has no rows. *)
Record database := mk_database {
  schema_present                       : bool;
  stg_app_events_raw                   : list app_events_raw;
  stg_customers_raw                    : list customers_raw;
  stg_subscriptions_raw                : list subscriptions_raw;
  analytics_dim_customer               : list dim_customer_row;
  analytics_dim_plan                   : list dim_plan_row;
  analytics_dim_plan_plan_key_seq      : Z;
  analytics_dim_date                   : list dim_date_row;
  analytics_fact_app_usage             : list fact_app_usage_row;
  analytics_fact_subscription_events   : list fact_subscription_events_row
}.

(** The contents of the staging and analytics relations: everything but
    the schema flag and the state of the sequence. *)
Record relations := mk_relations {
  r_app_events_raw           : list app_events_raw;
  r_customers_raw            : list customers_raw;
  r_subscriptions_raw        : list subscriptions_raw;
  r_dim_customer             : list dim_customer_row;
  r_dim_plan                 : list dim_plan_row;
  r_dim_date                 : list dim_date_row;
  r_fact_app_usage           : list fact_app_usage_row;
  r_fact_subscription_events : list fact_subscription_events_row
}.

Definition contents (db : database) : relations :=
  mk_relations (stg_app_events_raw db) (stg_customers_raw db)
    (stg_subscriptions_raw db) (analytics_dim_customer db)
    (analytics_dim_plan db) (analytics_dim_date db)
    (analytics_fact_app_usage db) (analytics_fact_subscription_events db).

Definition empty_database : database :=
  mk_database false [] [] [] [] [] 1 [] [] [].

(** ** Relational operators *)

(** [l JOIN r ON on]: the pairs that satisfy the condition, by nested loop. *)
Definition JOIN {A B : Type} (l : list A) (r : list B) (on : A -> B -> bool)
  : list (A * B) :=
  flat_map (fun a => map (pair a) (filter (on a) r)) l.

(** [INSERT ... ON CONFLICT (key) DO UPDATE SET ...] over a relation with a
    unique key.  [excluded n s] is the row proposed for the source row
    [s], its defaulted columns drawn from the sequence value [n];
    [do_update s r] is the row [r] after the SET clause.  Every proposed
    row draws a sequence value, whether it is inserted or not.  A
    statement that proposes two rows with one key is refused (it "cannot
    affect row a second time"). *)
Section InsertOnConflict.
Context {Src Row K : Type}.
Variable eqK : K -> K -> bool.
Variable keyS : Src -> K.
Variable keyR : Row -> K.
Variable excluded : Z -> Src -> Row.
Variable do_update : Src -> Row -> Row.

Definition conflicts (s : Src) (r : Row) : bool := eqK (keyS s) (keyR r).

Definition upsert (n : Z) (s : Src) (T : list Row) : list Row :=
  if existsb (conflicts s) T
  then map (fun r => if conflicts s r then do_update s r else r) T
  else T ++ [excluded n s].

Fixpoint upsert_all (n : Z) (rows : list Src) (T : list Row) : list Row * Z :=
  match rows with
  | [] => (T, n)
  | s :: rest => upsert_all (n + 1) rest (upsert n s T)
  end.

Fixpoint has_dup (l : list K) : bool :=
  match l with
  | [] => false
  | k :: l' => existsb (eqK k) l' || has_dup l'
  end.

Definition insert_on_conflict_do_update (n : Z) (rows : list Src) (T : list Row)
  : option (list Row * Z) :=
  if has_dup (map keyS rows) then None else Some (upsert_all n rows T).

(** The distinct values of a list, in order of first occurrence. *)
Fixpoint distinct (l : list K) : list K :=
  match l with
  | [] => []
  | k :: l' => k :: filter (fun k' => negb (eqK k k')) (distinct l')
  end.
(** The relation already holds the values of the source row [s]: a row
    with its key is there, and the SET clause would change none. *)
Definition settled (s : Src) (T : list Row) : Prop :=
  existsb (conflicts s) T = true /\
  forall r, In r T -> conflicts s r = true -> do_update s r = r.

End InsertOnConflict.

(** ** The four statements of [TRANSFORM_SQL] *)

Inductive query_name :=
| dim_customer
| dim_plan
| fact_app_usage
| fact_subscription_events.

(** *** [dim_customer] *)

Definition excluded_customer (_ : Z) (c : customers_raw) : dim_customer_row :=
  mk_dim_customer (c_customer_id c) (c_company_name c) (c_country c)
    (c_address c) (c_signup_date c).

Definition update_customer (c : customers_raw) (r : dim_customer_row)
  : dim_customer_row :=
  mk_dim_customer (dc_customer_id r) (c_company_name c) (c_country c)
    (c_address c) (c_signup_date c).

Definition dim_customer_sql (db : database) : option database :=
  match
    insert_on_conflict_do_update String.eqb c_customer_id dc_customer_id
      excluded_customer update_customer 0
      (stg_customers_raw db) (analytics_dim_customer db)
  with
  | None => None
  | Some (T, _) =>
      Some (mk_database (schema_present db) (stg_app_events_raw db)
              (stg_customers_raw db) (stg_subscriptions_raw db)
              T
              (analytics_dim_plan db) (analytics_dim_plan_plan_key_seq db)
              (analytics_dim_date db) (analytics_fact_app_usage db)
              (analytics_fact_subscription_events db))
  end.

(** *** [dim_plan] *)

Definition plan_key_eqb (a b : string * string) : bool :=
  String.eqb (fst a) (fst b) && String.eqb (snd a) (snd b).

Definition s_partition (s : subscriptions_raw) : string * string :=
  (s_plan_name s, s_period s).

Definition p_unique_key (p : dim_plan_row) : string * string :=
  (p_plan_name p, p_period p).

(** [ORDER BY amount DESC], as a stable insertion sort of the rows in the
    order the executor delivers them: among rows of equal amount (peers)
    the statement fixes no order, and the one that comes out first is the
    one that was delivered first. *)
Fixpoint insert_desc (x : subscriptions_raw) (l : list subscriptions_raw)
  : list subscriptions_raw :=
  match l with
  | [] => [x]
  | y :: l' =>
      if Qle_bool (s_amount y) (s_amount x) then x :: y :: l'
      else y :: insert_desc x l'
  end.

Fixpoint order_by_amount_desc (l : list subscriptions_raw)
  : list subscriptions_raw :=
  match l with
  | [] => []
  | x :: l' => insert_desc x (order_by_amount_desc l')
  end.

(** [ROW_NUMBER()] over one ordered partition. *)
Definition ROW_NUMBER (l : list subscriptions_raw)
  : list (subscriptions_raw * nat) :=
  combine l (seq 1 (List.length l)).

(** The CTE [ranked_subscriptions], over the staging rows in the order
    [scan] in which the executor delivers them. *)
Definition ranked_subscriptions (scan : list subscriptions_raw)
  : list (subscriptions_raw * nat) :=
  flat_map
    (fun k =>
       ROW_NUMBER
         (order_by_amount_desc
            (filter (fun s => plan_key_eqb k (s_partition s)) scan)))
    (distinct plan_key_eqb (map s_partition scan)).

(** [SELECT ... FROM ranked_subscriptions WHERE rn = 1] *)
Definition top_ranked (scan : list subscriptions_raw) : list subscriptions_raw :=
  map fst (filter (fun sr => Nat.eqb (snd sr) 1) (ranked_subscriptions scan)).

Definition excluded_plan (n : Z) (s : subscriptions_raw) : dim_plan_row :=
  mk_dim_plan n (s_plan_name s) (s_period s) (s_amount s) (s_currency s).

Definition update_plan (s : subscriptions_raw) (r : dim_plan_row) : dim_plan_row :=
  mk_dim_plan (p_plan_key r) (p_plan_name r) (p_period r)
    (s_amount s) (s_currency s).

(** [peer_order] is the executor's part in the statement: the order in
    which it hands the rows of the staging relation to the window sort (a
    rearrangement of the relation; the heap order for a plain sequential
    scan). *)
Definition dim_plan_sql
  (peer_order : list subscriptions_raw -> list subscriptions_raw)
  (db : database) : option database :=
  match
    insert_on_conflict_do_update plan_key_eqb s_partition p_unique_key
      excluded_plan update_plan (analytics_dim_plan_plan_key_seq db)
      (top_ranked (peer_order (stg_subscriptions_raw db)))
      (analytics_dim_plan db)
  with
  | None => None
  | Some (T, n) =>
      Some (mk_database (schema_present db) (stg_app_events_raw db)
              (stg_customers_raw db) (stg_subscriptions_raw db)
              (analytics_dim_customer db)
              T n
              (analytics_dim_date db) (analytics_fact_app_usage db)
              (analytics_fact_subscription_events db))
  end.

(** *** [fact_app_usage] *)

Definition app_usage_row (ed : app_events_raw * dim_date_row)
  : fact_app_usage_row :=
  let (e, d) := ed in
  mk_fact_app_usage (e_event_timestamp e) (d_date_key d) (e_customer_id e)
    (e_event_type e) (e_feature_name e)
    (json_get_text (e_metadata e) "device").

Definition app_usage_on (e : app_events_raw) (d : dim_date_row) : bool :=
  date_eqb (cast_date (e_event_timestamp e)) (d_full_date d).

Definition fact_app_usage_select (db : database) : list fact_app_usage_row :=
  map app_usage_row
    (JOIN (stg_app_events_raw db) (analytics_dim_date db) app_usage_on).

(** [DELETE FROM analytics.fact_app_usage; INSERT INTO ... SELECT ...] *)
Definition fact_app_usage_sql (db : database) : database :=
  mk_database (schema_present db) (stg_app_events_raw db)
    (stg_customers_raw db) (stg_subscriptions_raw db)
    (analytics_dim_customer db)
    (analytics_dim_plan db) (analytics_dim_plan_plan_key_seq db)
    (analytics_dim_date db)
    ([] ++ fact_app_usage_select db)
    (analytics_fact_subscription_events db).

(** *** [fact_subscription_events] *)

Record subscription_details_row := mk_subscription_details {
  sd_subscription_id : string;
  sd_status          : string;
  sd_start_date      : date;
  sd_end_date        : option date;
  sd_mrr_amount      : Q;
  sd_customer_id     : string;
  sd_plan_key        : Z
}.

(** [CASE WHEN s.period = 'yearly' THEN s.amount / 12.0 ELSE s.amount END] *)
Definition mrr_amount (s : subscriptions_raw) : Q :=
  if String.eqb (s_period s) "yearly" then (s_amount s / 12)%Q
  else s_amount s.

Definition subscription_details_of
  (scp : subscriptions_raw * customers_raw * dim_plan_row)
  : subscription_details_row :=
  let '(s, c, p) := scp in
  mk_subscription_details (s_subscription_id s) (s_status s) (s_start_date s)
    (s_end_date s) (mrr_amount s) (c_customer_id c) (p_plan_key p).

Definition subscription_details (db : database) : list subscription_details_row :=
  map subscription_details_of
    (JOIN
       (JOIN (stg_subscriptions_raw db) (stg_customers_raw db)
          (fun s c => String.eqb (s_subscription_id s) (c_subscription_id c)))
       (analytics_dim_plan db)
       (fun sc p =>
          String.eqb (s_plan_name (fst sc)) (p_plan_name p)
          && String.eqb (s_period (fst sc)) (p_period p))).

Definition is_not_null {A : Type} (x : option A) : bool :=
  match x with Some _ => true | None => false end.

Definition subscription_event_row
  (sdd : subscription_details_row * dim_date_row)
  : fact_subscription_events_row :=
  let (sd, d) := sdd in
  mk_fact_subscription_events (d_date_key d) (sd_customer_id sd)
    (sd_plan_key sd) (sd_subscription_id sd) (sd_mrr_amount sd)
    (String.eqb (sd_status sd) "cancelled" || is_not_null (sd_end_date sd))
    (timestamp_eqb (DATE_TRUNC_month (sd_start_date sd))
       (DATE_TRUNC_month (d_full_date d)))
    (sd_status sd).

Definition fact_subscription_events_select (db : database)
  : list fact_subscription_events_row :=
  map subscription_event_row
    (JOIN (subscription_details db) (analytics_dim_date db)
       (fun sd d => date_eqb (sd_start_date sd) (d_full_date d))).

Definition fact_subscription_events_sql (db : database) : database :=
  mk_database (schema_present db) (stg_app_events_raw db)
    (stg_customers_raw db) (stg_subscriptions_raw db)
    (analytics_dim_customer db)
    (analytics_dim_plan db) (analytics_dim_plan_plan_key_seq db)
    (analytics_dim_date db)
    (analytics_fact_app_usage db)
    ([] ++ fact_subscription_events_select db).

Definition TRANSFORM_SQL
  (peer_order : list subscriptions_raw -> list subscriptions_raw)
  (q : query_name) (db : database) : option database :=
  match q with
  | dim_customer => dim_customer_sql db
  | dim_plan => dim_plan_sql peer_order db
  | fact_app_usage => Some (fact_app_usage_sql db)
  | fact_subscription_events => Some (fact_subscription_events_sql db)
  end.

(** ** The run: files, server, log *)

Inductive source :=
| app_events
| customers
| subscriptions.

(** What [pd.read_json] and [pd.read_csv] return, after the column names
    are normalised and [metadata] serialised: the rows of one source. *)
Inductive DataFrame :=
| df_app_events (rows : list app_events_raw)
| df_customers (rows : list customers_raw)
| df_subscriptions (rows : list subscriptions_raw).

Definition len (df : DataFrame) : nat :=
  match df with
  | df_app_events rows => List.length rows
  | df_customers rows => List.length rows
  | df_subscriptions rows => List.length rows
  end.

(** What is sent over the connection. *)
Inductive command :=
| cmd_connect
| cmd_schema
| cmd_truncate (s : source)
| cmd_to_sql (s : source)
| cmd_transform (q : query_name).

Inductive exn :=
| FileError (s : source)
| SchemaFileError
| SqlError (c : command).

(** The lines of the log, and the commands the server receives, in the
    order of the run. *)
Inductive event :=
| info_starting
| info_step (n : nat)
| info_reading (s : source)
| info_read (s : source) (rows : nat)
| error_failed_to_process (s : source)
| info_schema_created
| error_failed_to_create_schema
| info_truncating_and_loading (s : source)
| info_loaded (s : source) (rows : nat)
| info_executing_transform (q : query_name)
| error_failed_to_execute_transform (q : query_name)
| info_analytics_loaded
| info_finished
| error_pipeline_failed (x : exn)
| sql_begin
| sql_commit
| sql_rollback
| sql (c : command).

(** What a run meets outside the program: the three files of
    [SOURCE_FILES] ([None] for a file that cannot be read or parsed),
    [schema/schema.sql], the commands the connection or the server refuses
    (loss of connectivity, a violated constraint), and the order in which
    the executor delivers peers to the window sort of the plan statement. *)
Record environment := mk_environment {
  app_events_json   : option (list app_events_raw);
  customers_csv     : option (list customers_raw);
  subscriptions_csv : option (list subscriptions_raw);
  schema_sql        : bool;
  refuses           : command -> bool;
  peer_order        : list subscriptions_raw -> list subscriptions_raw
}.

Definition SOURCE_FILES : list source := [app_events; customers; subscriptions].

Definition read_file (env : environment) (s : source) : option DataFrame :=
  match s with
  | app_events => option_map df_app_events (app_events_json env)
  | customers => option_map df_customers (customers_csv env)
  | subscriptions => option_map df_subscriptions (subscriptions_csv env)
  end.

(** ** The monad of the orchestration *)

Definition world := (database * list event)%type.

Definition M (A : Type) : Type := world -> (A + exn) * world.

Definition ret {A : Type} (a : A) : M A := fun w => (inl a, w).

Definition bind {A B : Type} (m : M A) (k : A -> M B) : M B :=
  fun w =>
    match m w with
    | (inl a, w') => k a w'
    | (inr x, w') => (inr x, w')
    end.

Definition raise {A : Type} (x : exn) : M A := fun w => (inr x, w).

Definition logging (ev : event) : M unit :=
  fun w => (inl tt, (fst w, snd w ++ [ev])).

(** [try: m  except Exception: logging.error(ev); raise] *)
Definition try_except_log {A : Type} (m : M A) (ev : event) : M A :=
  fun w =>
    match m w with
    | (inl a, w') => (inl a, w')
    | (inr x, w') => (inr x, (fst w', snd w' ++ [ev]))
    end.

Declare Scope pipeline_scope.
Delimit Scope pipeline_scope with pipeline.
Notation "x <- m ;; k" := (bind m (fun x => k))
  (at level 61, m at next level, right associativity) : pipeline_scope.
Notation "m ;; k" := (bind m (fun _ => k))
  (at level 61, right associativity) : pipeline_scope.
Local Open Scope pipeline_scope.

Fixpoint for_each {A : Type} (l : list A) (body : A -> M unit) : M unit :=
  match l with
  | [] => ret tt
  | a :: l' => body a ;; for_each l' body
  end.

(** [conn.execute]: the command reaches the server; a refused or failing
    statement changes nothing and raises. *)
Definition conn_execute (env : environment) (c : command)
  (statement : database -> option database) : M unit :=
  fun w =>
    let w' := (fst w, snd w ++ [sql c]) in
    if refuses env c then (inr (SqlError c), w')
    else
      match statement (fst w) with
      | Some db' => (inl tt, (db', snd w'))
      | None => (inr (SqlError c), w')
      end.

(** [with conn.begin():] commits when the block ends and rolls back when
    it raises. *)
Definition with_conn_begin {A : Type} (block : M A) : M A :=
  fun w =>
    match block (fst w, snd w ++ [sql_begin]) with
    | (inl a, w') => (inl a, (fst w', snd w' ++ [sql_commit]))
    | (inr x, w') => (inr x, (fst w, snd w' ++ [sql_rollback]))
    end.

(** ** The functions of [pipeline.py] *)

Definition extract_data_from_files (env : environment)
  : M (list (source * DataFrame)) :=
  logging (info_step 1) ;;
  (fix loop (l : list source) (dataframes : list (source * DataFrame))
     : M (list (source * DataFrame)) :=
     match l with
     | [] => ret dataframes
     | s :: l' =>
         logging (info_reading s) ;;
         df <- try_except_log
                 (match read_file env s with
                  | Some df => logging (info_read s (len df)) ;; ret df
                  | None => raise (FileError s)
                  end)
                 (error_failed_to_process s) ;;
         loop l' (dataframes ++ [(s, df)])
     end) SOURCE_FILES [].

(** [TRUNCATE TABLE stg.<source>_raw RESTART IDENTITY] *)
Definition truncate_table (s : source) (db : database) : database :=
  match s with
  | app_events =>
      mk_database (schema_present db) []
        (stg_customers_raw db) (stg_subscriptions_raw db)
        (analytics_dim_customer db)
        (analytics_dim_plan db) (analytics_dim_plan_plan_key_seq db)
        (analytics_dim_date db) (analytics_fact_app_usage db)
        (analytics_fact_subscription_events db)
  | customers =>
      mk_database (schema_present db) (stg_app_events_raw db)
        [] (stg_subscriptions_raw db)
        (analytics_dim_customer db)
        (analytics_dim_plan db) (analytics_dim_plan_plan_key_seq db)
        (analytics_dim_date db) (analytics_fact_app_usage db)
        (analytics_fact_subscription_events db)
  | subscriptions =>
      mk_database (schema_present db) (stg_app_events_raw db)
        (stg_customers_raw db) []
        (analytics_dim_customer db)
        (analytics_dim_plan db) (analytics_dim_plan_plan_key_seq db)
        (analytics_dim_date db) (analytics_fact_app_usage db)
        (analytics_fact_subscription_events db)
  end.

(** [df.to_sql(<source>_raw, conn, schema='stg', if_exists='append')]: the
    rows are added to the relation; a frame of another source does not
    fit its columns. *)
Definition to_sql (s : source) (df : DataFrame) (db : database)
  : option database :=
  match s, df with
  | app_events, df_app_events rows =>
      Some (mk_database (schema_present db) (stg_app_events_raw db ++ rows)
              (stg_customers_raw db) (stg_subscriptions_raw db)
              (analytics_dim_customer db)
              (analytics_dim_plan db) (analytics_dim_plan_plan_key_seq db)
              (analytics_dim_date db) (analytics_fact_app_usage db)
              (analytics_fact_subscription_events db))
  | customers, df_customers rows =>
      Some (mk_database (schema_present db) (stg_app_events_raw db)
              (stg_customers_raw db ++ rows) (stg_subscriptions_raw db)
              (analytics_dim_customer db)
              (analytics_dim_plan db) (analytics_dim_plan_plan_key_seq db)
              (analytics_dim_date db) (analytics_fact_app_usage db)
              (analytics_fact_subscription_events db))
  | subscriptions, df_subscriptions rows =>
      Some (mk_database (schema_present db) (stg_app_events_raw db)
              (stg_customers_raw db) (stg_subscriptions_raw db ++ rows)
              (analytics_dim_customer db)
              (analytics_dim_plan db) (analytics_dim_plan_plan_key_seq db)
              (analytics_dim_date db) (analytics_fact_app_usage db)
              (analytics_fact_subscription_events db))
  | _, _ => None
  end.

Definition load_data_to_staging_with_sql (env : environment)
  (dataframes : list (source * DataFrame)) : M unit :=
  logging (info_step 2) ;;
  for_each dataframes
    (fun sdf =>
       let (s, df) := sdf in
       logging (info_truncating_and_loading s) ;;
       conn_execute env (cmd_truncate s) (fun db => Some (truncate_table s db)) ;;
       conn_execute env (cmd_to_sql s) (to_sql s df) ;;
       logging (info_loaded s (len df))).

Definition transform_order : list query_name :=
  [dim_customer; dim_plan; fact_app_usage; fact_subscription_events].

Definition transform_data_in_analytics (env : environment) : M unit :=
  logging (info_step 3) ;;
  for_each transform_order
    (fun query_name =>
       try_except_log
         (logging (info_executing_transform query_name) ;;
          conn_execute env (cmd_transform query_name)
            (TRANSFORM_SQL (peer_order env) query_name))
         (error_failed_to_execute_transform query_name)) ;;
  logging info_analytics_loaded.

(** Modelled from the spec: the statements of [schema/schema.sql], which
    is not part of the sources.  They create what is absent and leave the
    rows of every existing relation as they are. *)
Definition schema_sql_statements (db : database) : option database :=
  Some (mk_database true (stg_app_events_raw db)
          (stg_customers_raw db) (stg_subscriptions_raw db)
          (analytics_dim_customer db)
          (analytics_dim_plan db) (analytics_dim_plan_plan_key_seq db)
          (analytics_dim_date db) (analytics_fact_app_usage db)
          (analytics_fact_subscription_events db)).

Definition create_schema (env : environment) : M unit :=
  logging (info_step 0) ;;
  try_except_log
    ((if schema_sql env then ret tt else raise SchemaFileError) ;;
     conn_execute env cmd_schema schema_sql_statements ;;
     logging info_schema_created)
    error_failed_to_create_schema.

(** [engine.connect()] *)
Definition engine_connect (env : environment) : M unit :=
  fun w =>
    if refuses env cmd_connect then (inr (SqlError cmd_connect), w)
    else (inl tt, (fst w, snd w ++ [sql cmd_connect])).

(** The body of the [try] of [main]. *)
Definition run (env : environment) : M unit :=
  all_data <- extract_data_from_files env ;;
  engine_connect env ;;
  with_conn_begin (create_schema env) ;;
  with_conn_begin
    (load_data_to_staging_with_sql env all_data ;;
     transform_data_in_analytics env) ;;
  logging info_finished.

(** The [try] block of [main] with the line logged before it. *)
Definition pipeline (env : environment) : M unit :=
  logging info_starting ;; run env.

Definition main (env : environment) (db : database) : world :=
  match pipeline env (db, []) with
  | (inl _, w) => w
  | (inr x, w) => (fst w, snd w ++ [error_pipeline_failed x])
  end.

(** ** Vocabulary of the statements below *)

(** The fact row built from a subscription, its customer, its plan and the
    date entry of its start date. *)
Definition subscription_fact (s : subscriptions_raw) (c : customers_raw)
  (p : dim_plan_row) (d : dim_date_row) : fact_subscription_events_row :=
  subscription_event_row (subscription_details_of (s, c, p), d).

(** The four rows are in their relations and satisfy the three ON
    conditions of the statement. *)
Definition joined (db : database) (s : subscriptions_raw) (c : customers_raw)
  (p : dim_plan_row) (d : dim_date_row) : Prop :=
  In s (stg_subscriptions_raw db) /\ In c (stg_customers_raw db) /\
  In p (analytics_dim_plan db) /\ In d (analytics_dim_date db) /\
  s_subscription_id s = c_subscription_id c /\
  (s_plan_name s = p_plan_name p /\ s_period s = p_period p) /\
  s_start_date s = d_full_date d.

Definition same_calendar_month (a b : date) : Prop :=
  year a = year b /\ month a = month b.

(** ** A sample run *)

Definition sample_dates : list dim_date_row :=
  [mk_dim_date 20240115 (mkDate 2024 1 15);
   mk_dim_date 20240201 (mkDate 2024 2 1)].

Definition sample_app_events : list app_events_raw :=
  [mk_app_event (mkTimestamp (mkDate 2024 1 15) 30600) "c1" "login" "dashboard"
     [("device", "mobile")]%string;
   mk_app_event (mkTimestamp (mkDate 2025 6 30) 100) "c2" "click" "export"
     [("device", "desktop")]%string].

Definition sample_customers : list customers_raw :=
  [mk_customer "c1" "Acme" "FR" "1 rue A" (mkDate 2023 12 1) "s1";
   mk_customer "c2" "Bolt" "ES" "2 calle B" (mkDate 2023 12 2) "s3"].

Definition sample_subscriptions : list subscriptions_raw :=
  [mk_subscription "s1" "Pro" "monthly" 10 "USD" "active" (mkDate 2024 1 15) None;
   mk_subscription "s2" "Pro" "monthly" 20 "USD" "cancelled" (mkDate 2024 1 15) None;
   mk_subscription "s3" "Pro" "yearly" 120 "EUR" "cancelled" (mkDate 2024 2 1) None].

Definition heap_order (l : list subscriptions_raw) : list subscriptions_raw := l.

Definition sample_environment : environment :=
  mk_environment (Some sample_app_events) (Some sample_customers)
    (Some sample_subscriptions) true (fun _ => false) heap_order.

Definition sample_initial_database : database :=
  mk_database false [] [] [] [] [] 1 sample_dates [] [].

Definition sample_database : database :=
  Eval vm_compute in fst (main sample_environment sample_initial_database).

Definition sample_fact_s1 : fact_subscription_events_row :=
  mk_fact_subscription_events 20240115 "c1" 1 "s1" 10 false true "active".

Definition sample_fact_s3 : fact_subscription_events_row :=
  mk_fact_subscription_events 20240201 "c2" 2 "s3" (120 # 12) true true "cancelled".

(** ** Two subscriptions of one plan that tie on the amount *)

Definition tie_usd : subscriptions_raw :=
  mk_subscription "s1" "Pro" "monthly" 20 "USD" "active" (mkDate 2024 1 15) None.

Definition tie_eur : subscriptions_raw :=
  mk_subscription "s2" "Pro" "monthly" 20 "EUR" "active" (mkDate 2024 1 15) None.

Definition tie_subscriptions : list subscriptions_raw := [tie_usd; tie_eur].

Definition reverse_order (l : list subscriptions_raw) : list subscriptions_raw :=
  rev l.

Definition tie_database : database :=
  mk_database true [] [] tie_subscriptions [] [] 1 sample_dates [] [].

(** ** The run without its log *)

(** What a block does to the database when the log is left out: [None]
    when it raises, the value and the new database otherwise. *)
Definition effect (A : Type) : Type := database -> option (A * database).

Definition and_then {A B : Type} (f : effect A) (g : A -> effect B) : effect B :=
  fun db =>
    match f db with
    | Some (a, db') => g a db'
    | None => None
    end.

Fixpoint each {A : Type} (l : list A) (body : A -> effect unit) : effect unit :=
  match l with
  | [] => fun db => Some (tt, db)
  | a :: l' => and_then (body a) (fun _ => each l' body)
  end.

Definition execute (env : environment) (c : command)
  (statement : database -> option database) : effect unit :=
  fun db => if refuses env c then None else option_map (pair tt) (statement db).

(** The block computes the effect, whatever the log. *)
Definition agrees {A : Type} (m : M A) (f : effect A) : Prop :=
  forall db l,
    match f db with
    | Some (a, db') => exists l', m (db, l) = (inl a, (db', l'))
    | None => exists x db' l', m (db, l) = (inr x, (db', l'))
    end.

(** The same, and a block that raises leaves the database as it found it. *)
Definition atomic {A : Type} (m : M A) (f : effect A) : Prop :=
  forall db l,
    match f db with
    | Some (a, db') => exists l', m (db, l) = (inl a, (db', l'))
    | None => exists x l', m (db, l) = (inr x, (db, l'))
    end.

Definition extracted (env : environment) : option (list (source * DataFrame)) :=
  match app_events_json env, customers_csv env, subscriptions_csv env with
  | Some evs, Some cus, Some subs =>
      Some [(app_events, df_app_events evs); (customers, df_customers cus);
            (subscriptions, df_subscriptions subs)]
  | _, _, _ => None
  end.

Definition create_schema_effect (env : environment) : effect unit :=
  fun db =>
    if schema_sql env then execute env cmd_schema schema_sql_statements db
    else None.

Definition load_effect (env : environment)
  (dataframes : list (source * DataFrame)) : effect unit :=
  each dataframes
    (fun sdf =>
       and_then
         (execute env (cmd_truncate (fst sdf))
            (fun db => Some (truncate_table (fst sdf) db)))
         (fun _ => execute env (cmd_to_sql (fst sdf)) (to_sql (fst sdf) (snd sdf)))).

Definition transform_effect (env : environment) : effect unit :=
  each transform_order
    (fun q => execute env (cmd_transform q) (TRANSFORM_SQL (peer_order env) q)).

(** The database a run ends with when it succeeds, [None] when it fails. *)
Definition pipeline_effect (env : environment) (db : database) : option database :=
  match extracted env with
  | None => None
  | Some dataframes =>
      if refuses env cmd_connect then None
      else
        match create_schema_effect env db with
        | None => None
        | Some (_, db0) =>
            option_map snd
              (and_then (load_effect env dataframes)
                 (fun _ => transform_effect env) db0)
        end
  end.

(** ** Closed forms of a run *)

Definition accepts_all (env : environment) (l : list command) : bool :=
  forallb (fun c => negb (refuses env c)) l.

Definition load_commands : list command :=
  [cmd_truncate app_events; cmd_to_sql app_events;
   cmd_truncate customers; cmd_to_sql customers;
   cmd_truncate subscriptions; cmd_to_sql subscriptions].

Definition transform_commands : list command :=
  [cmd_transform dim_customer; cmd_transform dim_plan;
   cmd_transform fact_app_usage; cmd_transform fact_subscription_events].

(** The schema file is there, no command of the run is refused, and no
    customer identifier comes twice in the customers file. *)
Definition run_succeeds (env : environment) (cus : list customers_raw) : bool :=
  schema_sql env
  && accepts_all env [cmd_connect; cmd_schema]
  && accepts_all env load_commands
  && accepts_all env transform_commands
  && negb (has_dup String.eqb (map c_customer_id cus)).

(** The database after the three loads. *)
Definition loaded (evs : list app_events_raw) (cus : list customers_raw)
  (subs : list subscriptions_raw) (db : database) : database :=
  mk_database (schema_present db) evs cus subs
    (analytics_dim_customer db)
    (analytics_dim_plan db) (analytics_dim_plan_plan_key_seq db)
    (analytics_dim_date db) (analytics_fact_app_usage db)
    (analytics_fact_subscription_events db).

(** The four statements in the order of [transform_order]. *)
Definition transformed
  (po : list subscriptions_raw -> list subscriptions_raw) (db : database)
  : option database :=
  match dim_customer_sql db with
  | None => None
  | Some db1 =>
      match dim_plan_sql po db1 with
      | None => None
      | Some db2 => Some (fact_subscription_events_sql (fact_app_usage_sql db2))
      end
  end.

(** The database after the load and the four statements. *)
Definition rebuilt (po : list subscriptions_raw -> list subscriptions_raw)
  (evs : list app_events_raw) (cus : list customers_raw)
  (subs : list subscriptions_raw) (db : database) : database :=
  let customers' :=
    upsert_all String.eqb c_customer_id dc_customer_id excluded_customer
      update_customer 0 cus (analytics_dim_customer db) in
  let plans' :=
    upsert_all plan_key_eqb s_partition p_unique_key excluded_plan update_plan
      (analytics_dim_plan_plan_key_seq db) (top_ranked (po subs))
      (analytics_dim_plan db) in
  fact_subscription_events_sql
    (fact_app_usage_sql
       (mk_database true evs cus subs (fst customers') (fst plans') (snd plans')
          (analytics_dim_date db) (analytics_fact_app_usage db)
          (analytics_fact_subscription_events db))).

(** ** Sample runs that fail, and runs over the tied subscriptions *)

(** The customers file names customer "c1" twice. *)
Definition duplicate_customers_environment : environment :=
  mk_environment (Some sample_app_events)
    (Some (sample_customers ++ [mk_customer "c1" "Acme" "FR" "3 rue C" (mkDate 2023 12 1) "s1"]))
    (Some sample_subscriptions) true (fun _ => false) heap_order.

Definition unreadable_events_environment : environment :=
  mk_environment None (Some sample_customers) (Some sample_subscriptions)
    true (fun _ => false) heap_order.


(** A block only adds to the log. *)
Definition appends {A : Type} (m : M A) : Prop :=
  forall w r w', m w = (r, w') -> exists l', snd w' = snd w ++ l'.

(** ** A customer who moved, and a plan that is no longer sold *)

Definition moved_customer : customers_raw :=
  mk_customer "c1" "Acme" "FR" "9 avenue Z" (mkDate 2023 12 1) "s1".

(** The sample database with a new customers batch: "c1" has a new
    address and "c2" is not in the batch; the plan dimension holds a plan
    ("Legacy", "monthly") that no staging subscription names. *)
Definition moved_database : database :=
  mk_database true (stg_app_events_raw sample_database) [moved_customer]
    (stg_subscriptions_raw sample_database)
    (analytics_dim_customer sample_database)
    (analytics_dim_plan sample_database
       ++ [mk_dim_plan 7 "Legacy" "monthly" 5 "USD"])
    8
    (analytics_dim_date sample_database)
    (analytics_fact_app_usage sample_database)
    (analytics_fact_subscription_events sample_database).

Definition moved_database_after_dim_customer : database :=
  Eval vm_compute in
    match dim_customer_sql moved_database with
    | Some db' => db'
    | None => moved_database
    end.


(** ** Lines of the log *)

(** What reading one source leaves in the log. *)
Definition reading_log (env : environment) (s : source) : list event :=
  match read_file env s with
  | Some df => [info_reading s; info_read s (len df)]
  | None => [info_reading s; error_failed_to_process s]
  end.

(** What sending one statement of the transformation leaves in the log. *)
Definition executing_log (q : query_name) : list event :=
  [info_executing_transform q; sql (cmd_transform q)].

(** ** Where a run leaves the database *)

(** The database once the schema transaction is committed. *)
Definition bootstrapped (db : database) : database :=
  mk_database true (stg_app_events_raw db)
    (stg_customers_raw db) (stg_subscriptions_raw db)
    (analytics_dim_customer db)
    (analytics_dim_plan db) (analytics_dim_plan_plan_key_seq db)
    (analytics_dim_date db) (analytics_fact_app_usage db)
    (analytics_fact_subscription_events db).

(** The run gets as far as a committed schema transaction: the files are
    read, the connection opens and the schema statements are accepted. *)
Definition bootstrap_commits (env : environment) : bool :=
  match extracted env with
  | Some _ =>
      negb (refuses env cmd_connect) && schema_sql env
      && negb (refuses env cmd_schema)
  | None => false
  end.

Definition is_transaction_event (ev : event) : bool :=
  match ev with
  | sql_begin | sql_commit | sql_rollback => true
  | _ => false
  end.

(** A block only adds to the log, and what it adds satisfies [P]. *)
Definition emits (P : event -> Prop) {A : Type} (m : M A) : Prop :=
  forall w r w', m w = (r, w') -> exists l', snd w' = snd w ++ l' /\ Forall P l'.

(** * Properties *)

(** ** Equality tests *)

Lemma date_eqb_eq (a b : date) : date_eqb a b = true <-> a = b.
Proof.
  unfold date_eqb. destruct a as [ya ma da], b as [yb mb db0]. simpl.
  rewrite !andb_true_iff, !Z.eqb_eq. split.
  - intros [[-> ->] ->]. reflexivity.
  - intros H. injection H as -> -> ->. auto.
Qed.

Lemma date_eqb_refl (a : date) : date_eqb a a = true.
Proof. apply date_eqb_eq. reflexivity. Qed.

Lemma timestamp_eqb_eq (a b : timestamp) : timestamp_eqb a b = true <-> a = b.
Proof.
  unfold timestamp_eqb. destruct a as [da sa], b as [db0 sb]. simpl.
  rewrite andb_true_iff, date_eqb_eq, Z.eqb_eq. split.
  - intros [-> ->]. reflexivity.
  - intros H. injection H as -> ->. auto.
Qed.

Lemma plan_key_eqb_eq (a b : string * string) : plan_key_eqb a b = true <-> a = b.
Proof.
  unfold plan_key_eqb. destruct a as [a1 a2], b as [b1 b2]. simpl.
  rewrite andb_true_iff, !String.eqb_eq. split.
  - intros [-> ->]. reflexivity.
  - intros H. injection H as -> ->. auto.
Qed.

(** ** Joins *)

Lemma in_JOIN {A B : Type} (l : list A) (r : list B) (on : A -> B -> bool) a b :
  In (a, b) (JOIN l r on) <-> In a l /\ In b r /\ on a b = true.
Proof.
  unfold JOIN. rewrite in_flat_map. split.
  - intros [a' [Ha Hb]]. apply in_map_iff in Hb.
    destruct Hb as [b' [E Hb]]. injection E as -> ->.
    apply filter_In in Hb. tauto.
  - intros [Ha [Hb Hon]]. exists a. split; [assumption|].
    apply in_map. apply filter_In. auto.
Qed.

(** In a relation that holds each key once, a test that pins the key
    selects at most one row. *)
Lemma filter_key_at_most_one {A K : Type} (key : A -> K) (f : A -> bool) (k : K)
  (l : list A) :
  (forall a, f a = true -> key a = k) ->
  NoDup (map key l) ->
  (List.length (filter f l) <= 1)%nat.
Proof.
  intros Hf. induction l as [|a l IH]; simpl; intros Hnd.
  - lia.
  - inversion Hnd as [|? ? Hnotin Hnd']; subst.
    destruct (f a) eqn:Fa.
    + assert (filter f l = []) as ->; [|simpl; lia].
      destruct (filter f l) as [|b t] eqn:E; [reflexivity|exfalso].
      assert (In b (filter f l)) as Hb by (rewrite E; left; reflexivity).
      apply filter_In in Hb. destruct Hb as [Hb Fb].
      apply Hnotin. rewrite (Hf a Fa), <- (Hf b Fb). apply in_map, Hb.
    + apply IH, Hnd'.
Qed.

(** ** The subscription fact *)

Lemma in_fact_subscription_events (db : database) (f : fact_subscription_events_row) :
  In f (analytics_fact_subscription_events (fact_subscription_events_sql db)) <->
  exists s c p d, joined db s c p d /\ f = subscription_fact s c p d.
Proof.
  unfold fact_subscription_events_sql, fact_subscription_events_select; simpl.
  rewrite in_map_iff. split.
  - intros [[sd d] [<- Hin]]. apply in_JOIN in Hin.
    destruct Hin as [Hsd [Hd Hon]].
    unfold subscription_details in Hsd. apply in_map_iff in Hsd.
    destruct Hsd as [[[s c] p] [<- Hscp]].
    apply in_JOIN in Hscp. destruct Hscp as [Hsc [Hp Hon2]].
    apply in_JOIN in Hsc. destruct Hsc as [Hs [Hc Hon1]].
    simpl in Hon2, Hon. apply andb_true_iff in Hon2.
    rewrite !String.eqb_eq in Hon2. apply String.eqb_eq in Hon1.
    apply date_eqb_eq in Hon.
    exists s, c, p, d. unfold joined. tauto.
  - intros [s [c [p [d [J ->]]]]].
    destruct J as (Hs & Hc & Hp & Hd & E1 & [E2 E3] & E4).
    exists (subscription_details_of (s, c, p), d). split; [reflexivity|].
    apply in_JOIN. split; [|split].
    + unfold subscription_details. apply in_map.
      apply in_JOIN. split; [|split].
      * apply in_JOIN. rewrite String.eqb_eq. auto.
      * assumption.
      * simpl. rewrite andb_true_iff, !String.eqb_eq. auto.
    + assumption.
    + simpl. apply date_eqb_eq. assumption.
Qed.

Lemma is_new_mrr_flag_spec s c p d :
  fs_is_new_mrr_flag (subscription_fact s c p d) = true <->
  same_calendar_month (s_start_date s) (d_full_date d).
Proof.
  unfold subscription_fact, same_calendar_month; simpl.
  rewrite timestamp_eqb_eq. unfold DATE_TRUNC_month. split.
  - intros H. injection H as -> ->. auto.
  - intros [-> ->]. reflexivity.
Qed.

Lemma churn_flag_spec s c p d :
  fs_churn_flag (subscription_fact s c p d) = true <->
  s_status s = "cancelled"%string \/ s_end_date s <> None.
Proof.
  unfold subscription_fact; simpl.
  rewrite orb_true_iff, String.eqb_eq.
  destruct (s_end_date s); simpl; split; intros [H|H]; auto;
    try discriminate; try congruence.
  right. discriminate.
Qed.


Example sample_fact_subscription_events :
  analytics_fact_subscription_events sample_database
  = [sample_fact_s1; sample_fact_s3].
Proof. reflexivity. Qed.

Example sample_rebuild_fact_subscription_events :
  analytics_fact_subscription_events (fact_subscription_events_sql sample_database)
  = [sample_fact_s1; sample_fact_s3].
Proof. reflexivity. Qed.

(** C2: every row of the subscription fact is the row of a joined
    subscription and date entry, and its new-revenue flag is true exactly
    when the start date of the subscription and the date of the entry are
    in the same calendar month (and false exactly when they are not). *)
Theorem is_new_mrr_flag_same_month (db : database) (f : fact_subscription_events_row) :
  In f (analytics_fact_subscription_events (fact_subscription_events_sql db)) ->
  exists s c p d,
    joined db s c p d /\ f = subscription_fact s c p d /\
    (fs_is_new_mrr_flag f = true <->
     same_calendar_month (s_start_date s) (d_full_date d)) /\
    (fs_is_new_mrr_flag f = false <->
     ~ same_calendar_month (s_start_date s) (d_full_date d)).
Proof.
  intros Hin. apply in_fact_subscription_events in Hin.
  destruct Hin as [s [c [p [d [J ->]]]]].
  exists s, c, p, d. split; [assumption|]. split; [reflexivity|].
  pose proof (is_new_mrr_flag_spec s c p d) as Hspec.
  split; [exact Hspec|].
  rewrite <- Hspec.
  destruct (fs_is_new_mrr_flag (subscription_fact s c p d)); split;
    intros H; congruence.
Qed.

Lemma is_new_mrr_flag_same_month_witness :
  exists s c p d,
    joined sample_database s c p d /\ sample_fact_s1 = subscription_fact s c p d /\
    (fs_is_new_mrr_flag sample_fact_s1 = true <->
     same_calendar_month (s_start_date s) (d_full_date d)) /\
    (fs_is_new_mrr_flag sample_fact_s1 = false <->
     ~ same_calendar_month (s_start_date s) (d_full_date d)).
Proof.
  apply (is_new_mrr_flag_same_month sample_database sample_fact_s1).
  simpl. left. reflexivity.
Defined.

(** C3: every row of the subscription fact has its new-revenue flag set:
    the join on the date dimension equates the start date with the date of
    the entry, so the two months always agree. *)
Theorem is_new_mrr_flag_always_true (db : database) (f : fact_subscription_events_row) :
  In f (analytics_fact_subscription_events (fact_subscription_events_sql db)) ->
  fs_is_new_mrr_flag f = true.
Proof.
  intros Hin. apply in_fact_subscription_events in Hin.
  destruct Hin as [s [c [p [d [J ->]]]]].
  apply is_new_mrr_flag_spec.
  destruct J as (_ & _ & _ & _ & _ & _ & E).
  rewrite E. split; reflexivity.
Qed.

Lemma is_new_mrr_flag_always_true_witness :
  fs_is_new_mrr_flag sample_fact_s3 = true.
Proof.
  apply (is_new_mrr_flag_always_true sample_database sample_fact_s3).
  simpl. right. left. reflexivity.
Defined.

(** C7: every row of the subscription fact is the row of a joined
    subscription, and its churn flag is true exactly when the status of
    the subscription is "cancelled" or its end date is present. *)
Theorem churn_flag_cancelled_or_ended (db : database) (f : fact_subscription_events_row) :
  In f (analytics_fact_subscription_events (fact_subscription_events_sql db)) ->
  exists s c p d,
    joined db s c p d /\ f = subscription_fact s c p d /\
    (fs_churn_flag f = true <->
     s_status s = "cancelled"%string \/ s_end_date s <> None).
Proof.
  intros Hin. apply in_fact_subscription_events in Hin.
  destruct Hin as [s [c [p [d [J ->]]]]].
  exists s, c, p, d. split; [assumption|]. split; [reflexivity|].
  apply churn_flag_spec.
Qed.

Lemma churn_flag_cancelled_or_ended_witness :
  exists s c p d,
    joined sample_database s c p d /\ sample_fact_s3 = subscription_fact s c p d /\
    (fs_churn_flag sample_fact_s3 = true <->
     s_status s = "cancelled"%string \/ s_end_date s <> None).
Proof.
  apply (churn_flag_cancelled_or_ended sample_database sample_fact_s3).
  simpl. right. left. reflexivity.
Defined.

(** The two cases the specification singles out. *)
Example churn_flag_cancelled_without_end_date s c p d :
  s_status s = "cancelled"%string -> s_end_date s = None ->
  fs_churn_flag (subscription_fact s c p d) = true.
Proof. intros H _. apply churn_flag_spec. left. exact H. Qed.

Example churn_flag_active_without_end_date s c p d :
  s_status s = "active"%string -> s_end_date s = None ->
  fs_churn_flag (subscription_fact s c p d) = false.
Proof.
  intros H1 H2.
  destruct (fs_churn_flag (subscription_fact s c p d)) eqn:E; [|reflexivity].
  apply churn_flag_spec in E. destruct E as [E|E].
  - rewrite H1 in E. discriminate.
  - contradiction.
Qed.



(** A yearly amount of 120 gives 10 a month; a monthly amount of 10 stays. *)
Example mrr_amount_yearly_120 :
  (fs_mrr_amount sample_fact_s3 == 10)%Q /\ fs_mrr_amount sample_fact_s1 = 10%Q.
Proof. split; reflexivity. Qed.

(** ** INSERT ... ON CONFLICT DO UPDATE *)

Section InsertOnConflictFacts.
Context {Src Row K : Type}.
Variable eqK : K -> K -> bool.
Variable keyS : Src -> K.
Variable keyR : Row -> K.
Variable excluded : Z -> Src -> Row.
Variable do_update : Src -> Row -> Row.

Hypothesis eqK_eq : forall a b, eqK a b = true <-> a = b.
Hypothesis key_excluded : forall n s, keyR (excluded n s) = keyS s.
Hypothesis key_update : forall s r, keyR (do_update s r) = keyR r.
Hypothesis update_excluded : forall n s, do_update s (excluded n s) = excluded n s.
Hypothesis update_update : forall s r, do_update s (do_update s r) = do_update s r.

Local Abbreviation cf := (conflicts eqK keyS keyR).
Local Abbreviation ups := (upsert eqK keyS keyR excluded do_update).
Local Abbreviation ups_all := (upsert_all eqK keyS keyR excluded do_update).
Local Abbreviation stl := (settled eqK keyS keyR do_update).

Lemma conflicts_iff s r : cf s r = true <-> keyS s = keyR r.
Proof. unfold conflicts. apply eqK_eq. Qed.

Lemma eqK_refl k : eqK k k = true.
Proof. apply eqK_eq. reflexivity. Qed.

Lemma eqK_neq a b : a <> b -> eqK a b = false.
Proof.
  intros H. destruct (eqK a b) eqn:E; [|reflexivity].
  apply eqK_eq in E. contradiction.
Qed.

Lemma has_dup_false_iff (l : list K) : has_dup eqK l = false <-> NoDup l.
Proof.
  induction l as [|k l IH]; simpl.
  - split; [constructor | reflexivity].
  - rewrite orb_false_iff, IH. split.
    + intros [Hex Hnd]. constructor; [|assumption].
      intros Hin. assert (existsb (eqK k) l = true) as E.
      { apply existsb_exists. exists k. split; [assumption | apply eqK_refl]. }
      congruence.
    + intros Hnd. inversion Hnd as [|? ? Hnotin Hnd']; subst.
      split; [|assumption].
      destruct (existsb (eqK k) l) eqn:E; [|reflexivity].
      apply existsb_exists in E. destruct E as [k' [Hin E]].
      apply eqK_eq in E. subst k'. contradiction.
Qed.

Lemma in_distinct (l : list K) k : In k (distinct eqK l) <-> In k l.
Proof.
  induction l as [|a l IH]; simpl; [tauto|].
  rewrite filter_In, IH, negb_true_iff. split.
  - intros [H|[H _]]; auto.
  - intros [H|H]; auto.
    destruct (eqK a k) eqn:E.
    + left. apply eqK_eq, E.
    + right. auto.
Qed.

Lemma NoDup_distinct (l : list K) : NoDup (distinct eqK l).
Proof.
  induction l as [|a l IH]; simpl; constructor.
  - rewrite filter_In, negb_true_iff, eqK_refl. intros [_ H]. discriminate.
  - apply NoDup_filter, IH.
Qed.

Lemma upsert_keys_conflict n s T :
  existsb (cf s) T = true ->
  map keyR (ups n s T) = map keyR T.
Proof.
  intros E. unfold upsert. rewrite E.
  rewrite map_map. apply map_ext. intros r.
  destruct (cf s r); [apply key_update | reflexivity].
Qed.

Lemma upsert_keys_fresh n s T :
  existsb (cf s) T = false ->
  map keyR (ups n s T) = map keyR T ++ [keyS s].
Proof.
  intros E. unfold upsert. rewrite E.
  rewrite map_app. simpl. rewrite key_excluded. reflexivity.
Qed.

Lemma existsb_conflicts_iff s T :
  existsb (cf s) T = true <-> In (keyS s) (map keyR T).
Proof.
  rewrite existsb_exists, in_map_iff. split.
  - intros [r [Hin E]]. exists r. apply conflicts_iff in E. auto.
  - intros [r [E Hin]]. exists r. split; [assumption|].
    apply conflicts_iff. auto.
Qed.

(** The unique key stays unique. *)
Lemma upsert_NoDup n s T :
  NoDup (map keyR T) -> NoDup (map keyR (ups n s T)).
Proof.
  intros Hnd. destruct (existsb (cf s) T) eqn:E.
  - rewrite upsert_keys_conflict; assumption.
  - rewrite upsert_keys_fresh by assumption.
    apply NoDup_app; [assumption | repeat constructor; simpl; tauto |].
    intros k Hin [<-|[]].
    apply existsb_conflicts_iff in Hin. congruence.
Qed.

Lemma upsert_all_NoDup rows : forall n T,
  NoDup (map keyR T) -> NoDup (map keyR (fst (ups_all n rows T))).
Proof.
  induction rows as [|s rows IH]; simpl; intros n T Hnd; [assumption|].
  apply IH, upsert_NoDup, Hnd.
Qed.


Lemma upsert_settles n s T : stl s (ups n s T).
Proof.
  unfold settled. destruct (existsb (cf s) T) eqn:E.
  - split.
    + apply existsb_conflicts_iff. rewrite upsert_keys_conflict by assumption.
      apply existsb_conflicts_iff, E.
    + unfold upsert. rewrite E. intros r Hin C.
      apply in_map_iff in Hin. destruct Hin as [r0 [<- Hin]].
      destruct (cf s r0) eqn:C0; [apply update_update | congruence].
  - split.
    + apply existsb_conflicts_iff. rewrite upsert_keys_fresh by assumption.
      apply in_or_app. right. left. reflexivity.
    + unfold upsert. rewrite E. intros r Hin C.
      apply in_app_or in Hin. destruct Hin as [Hin|[<-|[]]].
      * assert (existsb (cf s) T = true) as E'.
        { apply existsb_exists. exists r. auto. }
        congruence.
      * apply update_excluded.
Qed.

Lemma upsert_keeps_settled n s s' T :
  keyS s <> keyS s' -> stl s T -> stl s (ups n s' T).
Proof.
  intros Hneq [E Hfix]. split.
  - apply existsb_conflicts_iff.
    apply existsb_conflicts_iff in E.
    destruct (existsb (cf s') T) eqn:E'.
    + rewrite upsert_keys_conflict; assumption.
    + rewrite upsert_keys_fresh by assumption. apply in_or_app. left. exact E.
  - intros r Hin C. unfold upsert in Hin.
    destruct (existsb (cf s') T) eqn:E'.
    + apply in_map_iff in Hin. destruct Hin as [r0 [Hr Hin]].
      destruct (cf s' r0) eqn:C'.
      * exfalso. subst r. apply conflicts_iff in C, C'.
        rewrite key_update in C. congruence.
      * subst r0. apply Hfix; assumption.
    + apply in_app_or in Hin. destruct Hin as [Hin|[<-|[]]].
      * apply Hfix; assumption.
      * exfalso. apply conflicts_iff in C. rewrite key_excluded in C.
        contradiction.
Qed.

Lemma upsert_all_keeps_settled s rows : forall n T,
  ~ In (keyS s) (map keyS rows) -> stl s T ->
  stl s (fst (ups_all n rows T)).
Proof.
  induction rows as [|s' rows IH]; simpl; intros n T Hnotin Hs; [assumption|].
  apply IH; [tauto|]. apply upsert_keeps_settled; [|assumption].
  intros E. apply Hnotin. left. symmetry. exact E.
Qed.

Lemma upsert_all_settles rows : forall n T s,
  NoDup (map keyS rows) -> In s rows ->
  stl s (fst (ups_all n rows T)).
Proof.
  induction rows as [|s' rows IH]; simpl; intros n T s Hnd Hin; [contradiction|].
  inversion Hnd as [|? ? Hnotin Hnd']; subst.
  destruct Hin as [->|Hin].
  - apply upsert_all_keeps_settled; [assumption | apply upsert_settles].
  - apply IH; assumption.
Qed.



End InsertOnConflictFacts.

(** ** The window of the plan statement *)

Lemma filter_rn_beyond_first (l : list subscriptions_raw) : forall n,
  (2 <= n)%nat ->
  filter (fun sr : subscriptions_raw * nat => Nat.eqb (snd sr) 1)
    (combine l (seq n (List.length l))) = [].
Proof.
  induction l as [|x l IH]; simpl; intros n Hn; [reflexivity|].
  destruct (Nat.eqb n 1) eqn:E.
  - apply Nat.eqb_eq in E. lia.
  - apply IH. lia.
Qed.

Lemma ROW_NUMBER_first (l : list subscriptions_raw) :
  map fst (filter (fun sr : subscriptions_raw * nat => Nat.eqb (snd sr) 1)
             (ROW_NUMBER l))
  = firstn 1 l.
Proof.
  unfold ROW_NUMBER. destruct l as [|x l]; simpl; [reflexivity|].
  rewrite filter_rn_beyond_first by lia. reflexivity.
Qed.

Lemma top_ranked_eq (scan : list subscriptions_raw) :
  top_ranked scan
  = flat_map
      (fun k =>
         firstn 1
           (order_by_amount_desc
              (filter (fun s => plan_key_eqb k (s_partition s)) scan)))
      (distinct plan_key_eqb (map s_partition scan)).
Proof.
  unfold top_ranked, ranked_subscriptions.
  induction (distinct plan_key_eqb (map s_partition scan)) as [|k ks IH];
    simpl; [reflexivity|].
  rewrite filter_app, map_app, ROW_NUMBER_first, IH. reflexivity.
Qed.

Lemma in_insert_desc x l y : In y (insert_desc x l) <-> y = x \/ In y l.
Proof.
  induction l as [|z l IH]; simpl.
  - split; intros [H|H]; auto.
  - destruct (Qle_bool (s_amount z) (s_amount x)); simpl.
    + split; intros [H|H]; auto.
    + rewrite IH. split; intros H; intuition.
Qed.

Lemma in_order_by_amount_desc l y : In y (order_by_amount_desc l) <-> In y l.
Proof.
  induction l as [|x l IH]; simpl; [tauto|].
  rewrite in_insert_desc, IH. split; intros [H|H]; auto.
Qed.

Lemma order_by_amount_desc_nil l : order_by_amount_desc l = [] -> l = [].
Proof.
  destruct l as [|x l]; [reflexivity|]. intros E. exfalso.
  assert (In x (order_by_amount_desc (x :: l))) as Hin.
  { apply in_order_by_amount_desc. left. reflexivity. }
  rewrite E in Hin. contradiction.
Qed.

(** The row that comes out first is one of the rows, and no row has a
    greater amount. *)
Lemma order_by_amount_desc_head l : forall h t,
  order_by_amount_desc l = h :: t ->
  In h l /\ forall y, In y l -> (s_amount y <= s_amount h)%Q.
Proof.
  induction l as [|x l IH]; simpl; intros h t E; [discriminate|].
  destruct (order_by_amount_desc l) as [|h' t'] eqn:El.
  - apply order_by_amount_desc_nil in El. subst l. simpl in E.
    injection E as <- _. split; [auto|].
    intros y [<-|[]]. apply Qle_refl.
  - destruct (IH h' t' eq_refl) as [Hin Hmax]. simpl in E.
    destruct (Qle_bool (s_amount h') (s_amount x)) eqn:C.
    + injection E as <- _. apply Qle_bool_iff in C. split; [auto|].
      intros y [<-|Hy]; [apply Qle_refl|].
      apply Qle_trans with (s_amount h'); auto.
    + injection E as <- _. split; [auto|].
      intros y [<-|Hy]; [|auto].
      apply Qlt_le_weak, Qnot_le_lt. intros H.
      apply Qle_bool_iff in H. congruence.
Qed.

Lemma in_top_ranked scan r :
  In r (top_ranked scan) ->
  In r scan /\
  forall y, In y scan -> s_partition y = s_partition r ->
            (s_amount y <= s_amount r)%Q.
Proof.
  rewrite top_ranked_eq, in_flat_map. intros [k [_ Hin]].
  destruct (order_by_amount_desc
              (filter (fun s => plan_key_eqb k (s_partition s)) scan))
    as [|h t] eqn:E; simpl in Hin; [contradiction|].
  destruct Hin as [<-|[]].
  apply order_by_amount_desc_head in E. destruct E as [Hh Hmax].
  apply filter_In in Hh. destruct Hh as [Hh Hk].
  apply plan_key_eqb_eq in Hk. split; [assumption|].
  intros y Hy Ey. apply Hmax. apply filter_In. split; [assumption|].
  apply plan_key_eqb_eq. congruence.
Qed.

Lemma top_ranked_partitions_of scan : forall ks,
  (forall k, In k ks -> In k (map s_partition scan)) ->
  map s_partition
    (flat_map
       (fun k =>
          firstn 1
            (order_by_amount_desc
               (filter (fun s => plan_key_eqb k (s_partition s)) scan)))
       ks)
  = ks.
Proof.
  induction ks as [|k ks IH]; intros Hks; [reflexivity|].
  cbn [flat_map]. rewrite map_app, IH by (intros; apply Hks; right; assumption).
  destruct (order_by_amount_desc
              (filter (fun s => plan_key_eqb k (s_partition s)) scan))
    as [|h t] eqn:E.
  - exfalso. apply order_by_amount_desc_nil in E.
    pose proof (Hks k (or_introl eq_refl)) as Hin.
    apply in_map_iff in Hin. destruct Hin as [s [Es Hs]].
    assert (In s (filter (fun s => plan_key_eqb k (s_partition s)) scan)) as H.
    { apply filter_In. split; [assumption|]. apply plan_key_eqb_eq. auto. }
    rewrite E in H. contradiction.
  - simpl. apply order_by_amount_desc_head in E. destruct E as [Hh _].
    apply filter_In in Hh. destruct Hh as [_ Hk].
    apply plan_key_eqb_eq in Hk. rewrite <- Hk. reflexivity.
Qed.

(** One row comes out of the window for each partition. *)
Lemma top_ranked_partitions scan :
  map s_partition (top_ranked scan)
  = distinct plan_key_eqb (map s_partition scan).
Proof.
  rewrite top_ranked_eq. apply top_ranked_partitions_of.
  intros k Hk. apply (proj1 (in_distinct plan_key_eqb plan_key_eqb_eq _ k)), Hk.
Qed.

Lemma top_ranked_NoDup scan : NoDup (map s_partition (top_ranked scan)).
Proof.
  rewrite top_ranked_partitions. apply NoDup_distinct, plan_key_eqb_eq.
Qed.

Lemma top_ranked_covers scan s :
  In s scan ->
  exists r, In r (top_ranked scan) /\ s_partition r = s_partition s.
Proof.
  intros Hs.
  assert (In (s_partition s) (map s_partition (top_ranked scan))) as H.
  { rewrite top_ranked_partitions.
    apply (proj2 (in_distinct plan_key_eqb plan_key_eqb_eq _ _)).
    apply in_map, Hs. }
  apply in_map_iff in H. destruct H as [r [E Hr]]. exists r. auto.
Qed.

(** Whatever the order of delivery, the surviving row of a partition has
    the same partition and an equal amount. *)
Lemma top_ranked_amount_determined scan1 scan2 r1 :
  Permutation scan1 scan2 ->
  In r1 (top_ranked scan1) ->
  exists r2, In r2 (top_ranked scan2) /\
             s_plan_name r2 = s_plan_name r1 /\ s_period r2 = s_period r1 /\
             (s_amount r2 == s_amount r1)%Q.
Proof.
  intros HP H1. destruct (in_top_ranked _ _ H1) as [Hin1 Hmax1].
  assert (In r1 scan2) as Hin1' by (eapply Permutation_in; eassumption).
  destruct (top_ranked_covers scan2 r1 Hin1') as [r2 [H2 E]].
  destruct (in_top_ranked _ _ H2) as [Hin2 Hmax2].
  assert (In r2 scan1) as Hin2'.
  { eapply Permutation_in; [apply Permutation_sym|]; eassumption. }
  exists r2. split; [assumption|].
  unfold s_partition in E. injection E as E1 E2.
  split; [assumption|]. split; [assumption|].
  apply Qle_antisym.
  - apply Hmax1; [assumption|]. unfold s_partition. congruence.
  - apply Hmax2; [assumption|]. unfold s_partition. congruence.
Qed.

(** ** The plan dimension *)

Lemma filter_key_exactly_one {A K : Type} (key : A -> K) (f : A -> bool) (k : K)
  (l : list A) (x : A) :
  (forall a, f a = true <-> key a = k) ->
  NoDup (map key l) -> In x l -> key x = k ->
  filter f l = [x].
Proof.
  intros Hf Hnd Hin Hk.
  pose proof (filter_key_at_most_one key f k l (fun a => proj1 (Hf a)) Hnd) as Hle.
  assert (In x (filter f l)) as Hx.
  { apply filter_In. split; [assumption|]. apply Hf, Hk. }
  destruct (filter f l) as [|a [|b t]]; simpl in *.
  - contradiction.
  - destruct Hx as [->|[]]. reflexivity.
  - lia.
Qed.

(** The statement never proposes a key twice, so it is never refused. *)
Lemma dim_plan_sql_eq po db :
  dim_plan_sql po db
  = Some
      (mk_database (schema_present db) (stg_app_events_raw db)
         (stg_customers_raw db) (stg_subscriptions_raw db)
         (analytics_dim_customer db)
         (fst (upsert_all plan_key_eqb s_partition p_unique_key excluded_plan
                 update_plan (analytics_dim_plan_plan_key_seq db)
                 (top_ranked (po (stg_subscriptions_raw db)))
                 (analytics_dim_plan db)))
         (snd (upsert_all plan_key_eqb s_partition p_unique_key excluded_plan
                 update_plan (analytics_dim_plan_plan_key_seq db)
                 (top_ranked (po (stg_subscriptions_raw db)))
                 (analytics_dim_plan db)))
         (analytics_dim_date db) (analytics_fact_app_usage db)
         (analytics_fact_subscription_events db)).
Proof.
  unfold dim_plan_sql, insert_on_conflict_do_update.
  rewrite (proj2 (has_dup_false_iff plan_key_eqb plan_key_eqb_eq _))
    by apply top_ranked_NoDup.
  destruct (upsert_all _ _ _ _ _ _ _ _). reflexivity.
Qed.

Lemma dim_plan_settled po db r :
  In r (top_ranked (po (stg_subscriptions_raw db))) ->
  settled plan_key_eqb s_partition p_unique_key update_plan r
    (fst (upsert_all plan_key_eqb s_partition p_unique_key excluded_plan
            update_plan (analytics_dim_plan_plan_key_seq db)
            (top_ranked (po (stg_subscriptions_raw db)))
            (analytics_dim_plan db))).
Proof.
  intros Hr. apply upsert_all_settles; auto using plan_key_eqb_eq.
  apply top_ranked_NoDup.
Qed.

(** C4: for every staging subscription, the plan statement proposes
    exactly one row for its (plan_name, period), the plan dimension holds
    exactly one row for that key afterwards, and the base amount of that
    row is the greatest amount among the staging rows of the key. *)
Theorem dim_plan_one_row_with_max_amount
  (po : list subscriptions_raw -> list subscriptions_raw) (db : database)
  (s : subscriptions_raw) :
  Permutation (po (stg_subscriptions_raw db)) (stg_subscriptions_raw db) ->
  NoDup (map p_unique_key (analytics_dim_plan db)) ->
  In s (stg_subscriptions_raw db) ->
  exists db' r p,
    dim_plan_sql po db = Some db' /\
    filter (fun r' => plan_key_eqb (s_partition s) (s_partition r'))
      (top_ranked (po (stg_subscriptions_raw db))) = [r] /\
    filter (fun p' => plan_key_eqb (s_partition s) (p_unique_key p'))
      (analytics_dim_plan db') = [p] /\
    p_base_amount p = s_amount r /\
    In r (stg_subscriptions_raw db) /\ s_partition r = s_partition s /\
    (forall s', In s' (stg_subscriptions_raw db) ->
                s_partition s' = s_partition s ->
                (s_amount s' <= p_base_amount p)%Q).
Proof.
  intros HP Hnd Hs.
  assert (In s (po (stg_subscriptions_raw db))) as Hs'.
  { eapply Permutation_in; [apply Permutation_sym|]; eassumption. }
  destruct (top_ranked_covers _ _ Hs') as [r [Hr Er]].
  destruct (in_top_ranked _ _ Hr) as [Hrin Hmax].
  pose proof (dim_plan_settled po db r Hr) as [Hex Hfix].
  apply existsb_exists in Hex. destruct Hex as [p [Hp Cp]].
  pose proof (Hfix p Hp Cp) as Eup.
  unfold conflicts in Cp. apply plan_key_eqb_eq in Cp.
  eexists. exists r, p. split; [apply dim_plan_sql_eq|].
  cbn [analytics_dim_plan]. split; [|split; [|split; [|split; [|split]]]].
  - apply (filter_key_exactly_one s_partition _ (s_partition s)).
    + intros a. rewrite plan_key_eqb_eq. split; congruence.
    + apply top_ranked_NoDup.
    + assumption.
    + assumption.
  - apply (filter_key_exactly_one p_unique_key _ (s_partition s)).
    + intros a. rewrite plan_key_eqb_eq. split; congruence.
    + apply upsert_all_NoDup; auto using plan_key_eqb_eq.
    + assumption.
    + congruence.
  - rewrite <- Eup. reflexivity.
  - eapply Permutation_in; eassumption.
  - assumption.
  - intros s' Hs1 Es1. rewrite <- Eup. cbn [p_base_amount update_plan].
    apply Hmax; [|congruence].
    eapply Permutation_in; [apply Permutation_sym|]; eassumption.
Qed.

Lemma dim_plan_one_row_with_max_amount_witness :
  exists db' r p,
    dim_plan_sql heap_order sample_database = Some db' /\
    filter (fun r' => plan_key_eqb ("Pro", "monthly")%string (s_partition r'))
      (top_ranked (heap_order sample_subscriptions)) = [r] /\
    filter (fun p' => plan_key_eqb ("Pro", "monthly")%string (p_unique_key p'))
      (analytics_dim_plan db') = [p] /\
    p_base_amount p = s_amount r /\
    In r sample_subscriptions /\ s_partition r = ("Pro", "monthly")%string /\
    (forall s', In s' sample_subscriptions ->
                s_partition s' = ("Pro", "monthly")%string ->
                (s_amount s' <= p_base_amount p)%Q).
Proof.
  apply (dim_plan_one_row_with_max_amount heap_order sample_database
           (mk_subscription "s1" "Pro" "monthly" 10 "USD" "active"
              (mkDate 2024 1 15) None)).
  - apply Permutation_refl.
  - repeat constructor; simpl; intuition discriminate.
  - left. reflexivity.
Defined.

(** Amounts 10 and 20 for the plan ("Pro", "monthly") leave a base amount
    of 20. *)
Example dim_plan_pro_monthly_10_20 :
  map s_amount (filter (fun s => plan_key_eqb ("Pro", "monthly")%string (s_partition s))
                  sample_subscriptions) = [10%Q; 20%Q] /\
  map p_base_amount
    (filter (fun p => plan_key_eqb ("Pro", "monthly")%string (p_unique_key p))
       (analytics_dim_plan sample_database)) = [20%Q].
Proof. split; reflexivity. Qed.

(** C5, as stated, fails: over the same two staging rows, which tie on the
    amount, the window keeps the row in USD when the executor delivers the
    rows in heap order and the row in EUR when it delivers them in the
    reverse order, and the plan row that results differs. *)
Lemma dim_plan_tie_follows_delivery_order :
  Permutation (heap_order tie_subscriptions) tie_subscriptions /\
  Permutation (reverse_order tie_subscriptions) tie_subscriptions /\
  top_ranked (heap_order tie_subscriptions) = [tie_usd] /\
  top_ranked (reverse_order tie_subscriptions) = [tie_eur] /\
  option_map analytics_dim_plan (dim_plan_sql heap_order tie_database)
  = Some [mk_dim_plan 1 "Pro" "monthly" 20 "USD"] /\
  option_map analytics_dim_plan (dim_plan_sql reverse_order tie_database)
  = Some [mk_dim_plan 1 "Pro" "monthly" 20 "EUR"] /\
  ~ (forall po1 po2 : list subscriptions_raw -> list subscriptions_raw,
       Permutation (po1 tie_subscriptions) tie_subscriptions ->
       Permutation (po2 tie_subscriptions) tie_subscriptions ->
       top_ranked (po1 tie_subscriptions) = top_ranked (po2 tie_subscriptions)).
Proof.
  assert (Permutation (reverse_order tie_subscriptions) tie_subscriptions) as HP.
  { apply Permutation_sym, Permutation_rev. }
  repeat split; try reflexivity; try assumption.
  intros H. specialize (H heap_order reverse_order (Permutation_refl _) HP).
  discriminate H.
Qed.

(** C5, amended: over the same staging rows, whatever the order of
    delivery, the surviving row of a (plan_name, period) group has the
    same plan name, the same period and an equal amount; it is the same
    row when no other row of the group has that amount. *)
Theorem dim_plan_choice_determined_up_to_peers
  (po1 po2 : list subscriptions_raw -> list subscriptions_raw)
  (stg : list subscriptions_raw) (r1 : subscriptions_raw) :
  Permutation (po1 stg) stg ->
  Permutation (po2 stg) stg ->
  In r1 (top_ranked (po1 stg)) ->
  exists r2,
    In r2 (top_ranked (po2 stg)) /\
    s_plan_name r2 = s_plan_name r1 /\ s_period r2 = s_period r1 /\
    (s_amount r2 == s_amount r1)%Q /\
    ((forall y, In y stg -> s_partition y = s_partition r1 ->
                (s_amount y == s_amount r1)%Q -> y = r1) ->
     r2 = r1).
Proof.
  intros HP1 HP2 H1.
  assert (Permutation (po1 stg) (po2 stg)) as HP.
  { eapply Permutation_trans; [eassumption | apply Permutation_sym; assumption]. }
  destruct (top_ranked_amount_determined _ _ r1 HP H1) as [r2 (H2 & E1 & E2 & E3)].
  exists r2. repeat split; try assumption.
  intros Huniq. apply Huniq.
  - destruct (in_top_ranked _ _ H2) as [Hin _].
    eapply Permutation_in; eassumption.
  - unfold s_partition. congruence.
  - assumption.
Qed.

Lemma dim_plan_choice_determined_up_to_peers_witness :
  exists r2,
    In r2 (top_ranked (reverse_order tie_subscriptions)) /\
    s_plan_name r2 = s_plan_name tie_usd /\ s_period r2 = s_period tie_usd /\
    (s_amount r2 == s_amount tie_usd)%Q /\
    ((forall y, In y tie_subscriptions -> s_partition y = s_partition tie_usd ->
                (s_amount y == s_amount tie_usd)%Q -> y = tie_usd) ->
     r2 = tie_usd).
Proof.
  apply (dim_plan_choice_determined_up_to_peers heap_order reverse_order
           tie_subscriptions tie_usd).
  - apply Permutation_refl.
  - apply Permutation_sym, Permutation_rev.
  - left. reflexivity.
Defined.

(** ** The orchestration and its effect on the database *)

Lemma bind_inl {A B : Type} (m : M A) (k : A -> M B) w a w' :
  m w = (inl a, w') -> bind m k w = k a w'.
Proof. intros E. unfold bind. rewrite E. reflexivity. Qed.

Lemma bind_inr {A B : Type} (m : M A) (k : A -> M B) w x w' :
  m w = (inr x, w') -> bind m k w = (inr x, w').
Proof. intros E. unfold bind. rewrite E. reflexivity. Qed.

Lemma agrees_ret {A : Type} (a : A) : agrees (ret a) (fun db => Some (a, db)).
Proof. intros db l. exists l. reflexivity. Qed.

Lemma agrees_raise {A : Type} (x : exn) : agrees (@raise A x) (fun _ => None).
Proof. intros db l. exists x, db, l. reflexivity. Qed.

Lemma agrees_logging ev : agrees (logging ev) (fun db => Some (tt, db)).
Proof. intros db l. eexists. reflexivity. Qed.

Lemma agrees_bind {A B : Type} (m : M A) (k : A -> M B) f g :
  agrees m f -> (forall a, agrees (k a) (g a)) ->
  agrees (bind m k) (and_then f g).
Proof.
  intros Hm Hk db l. unfold and_then. specialize (Hm db l).
  destruct (f db) as [[a db']|].
  - destruct Hm as [l' E]. rewrite (bind_inl _ _ _ _ _ E). apply Hk.
  - destruct Hm as [x [db' [l' E]]]. rewrite (bind_inr _ _ _ _ _ E).
    exists x, db', l'. reflexivity.
Qed.

Lemma agrees_try_except_log {A : Type} (m : M A) ev f :
  agrees m f -> agrees (try_except_log m ev) f.
Proof.
  intros Hm db l. specialize (Hm db l). unfold try_except_log.
  destruct (f db) as [[a db']|].
  - destruct Hm as [l' E]. rewrite E. exists l'. reflexivity.
  - destruct Hm as [x [db' [l' E]]]. rewrite E. eexists x, db', _. reflexivity.
Qed.

Lemma agrees_conn_execute env c statement :
  agrees (conn_execute env c statement) (execute env c statement).
Proof.
  intros db l. unfold execute, conn_execute. simpl.
  destruct (refuses env c).
  - eexists _, _, _. reflexivity.
  - destruct (statement db) as [db'|]; simpl.
    + eexists. reflexivity.
    + eexists _, _, _. reflexivity.
Qed.

Lemma agrees_for_each {A : Type} (l : list A) (body : A -> M unit) pbody :
  (forall a, agrees (body a) (pbody a)) ->
  agrees (for_each l body) (each l pbody).
Proof.
  intros Hbody. induction l as [|a l IH]; simpl.
  - apply agrees_ret.
  - apply agrees_bind; [apply Hbody | intros _; apply IH].
Qed.

Lemma agrees_ext {A : Type} (m : M A) f f' :
  (forall db, f db = f' db) -> agrees m f -> agrees m f'.
Proof. intros E H db l. rewrite <- E. apply H. Qed.

(** [with conn.begin()] makes a block atomic. *)
Lemma atomic_with_conn_begin {A : Type} (block : M A) f :
  agrees block f -> atomic (with_conn_begin block) f.
Proof.
  intros H db l. specialize (H db (l ++ [sql_begin])).
  unfold with_conn_begin. simpl.
  destruct (f db) as [[a db']|].
  - destruct H as [l' E]. rewrite E. eexists. reflexivity.
  - destruct H as [x [db' [l' E]]]. rewrite E. eexists _, _. reflexivity.
Qed.

Lemma agrees_logging_then {A : Type} ev (m : M A) f :
  agrees m f -> agrees (bind (logging ev) (fun _ => m)) f.
Proof. intros H db l. unfold bind, logging. simpl. apply H. Qed.

Lemma agrees_ret_then {A B : Type} (a : A) (m : M B) f :
  agrees m f -> agrees (bind (ret a) (fun _ => m)) f.
Proof. intros H db l. unfold bind, ret. apply H. Qed.

Lemma agrees_raise_then {A B : Type} x (k : A -> M B) :
  agrees (bind (raise x) k) (fun _ => None).
Proof. intros db l. exists x, db, l. reflexivity. Qed.

Lemma agrees_then_logging (m : M unit) ev (f : effect unit) :
  agrees m f -> agrees (bind m (fun _ => logging ev)) f.
Proof.
  intros H db l. specialize (H db l). destruct (f db) as [[[] db']|].
  - destruct H as [l' E]. rewrite (bind_inl _ _ _ _ _ E).
    eexists. reflexivity.
  - destruct H as [x [db' [l' E]]]. rewrite (bind_inr _ _ _ _ _ E).
    exists x, db', l'. reflexivity.
Qed.

Ltac agrees_steps :=
  repeat lazymatch goal with
    | |- agrees (bind (logging _) _) _ => apply agrees_logging_then
    | |- agrees (bind (ret _) _) _ => apply agrees_ret_then
    | |- agrees (bind (raise _) _) _ => apply agrees_raise_then
    | |- agrees (bind _ (fun _ => logging _)) _ => apply agrees_then_logging
    | |- agrees (conn_execute _ _ _) _ => apply agrees_conn_execute
    | |- agrees (try_except_log _ _) _ => apply agrees_try_except_log
    | |- agrees (for_each _ _) _ => apply agrees_for_each; intros ?
    | |- agrees (bind _ _) _ => apply agrees_bind; [|intros ?]
    end.

Lemma agrees_create_schema env :
  agrees (create_schema env) (create_schema_effect env).
Proof.
  unfold create_schema, create_schema_effect.
  destruct (schema_sql env); cbv iota; agrees_steps.
Qed.

Lemma agrees_load_data_to_staging_with_sql env dataframes :
  agrees (load_data_to_staging_with_sql env dataframes)
    (load_effect env dataframes).
Proof.
  unfold load_data_to_staging_with_sql, load_effect.
  apply agrees_logging_then, agrees_for_each.
  intros [s df]. cbn [fst snd]. agrees_steps.
Qed.

Lemma agrees_transform_data_in_analytics env :
  agrees (transform_data_in_analytics env) (transform_effect env).
Proof.
  unfold transform_data_in_analytics, transform_effect. agrees_steps.
Qed.

Lemma agrees_load_and_transform env dataframes :
  agrees
    (bind (load_data_to_staging_with_sql env dataframes)
       (fun _ => transform_data_in_analytics env))
    (and_then (load_effect env dataframes) (fun _ => transform_effect env)).
Proof.
  apply agrees_bind.
  - apply agrees_load_data_to_staging_with_sql.
  - intros _. apply agrees_transform_data_in_analytics.
Qed.

Lemma extract_data_from_files_spec env db l :
  match extracted env with
  | Some dataframes =>
      exists l', extract_data_from_files env (db, l) = (inl dataframes, (db, l'))
  | None =>
      exists x l', extract_data_from_files env (db, l) = (inr x, (db, l'))
  end.
Proof.
  unfold extracted, extract_data_from_files, SOURCE_FILES, read_file,
    bind, logging, try_except_log, ret, raise.
  destruct (app_events_json env) as [evs|]; simpl;
    [|eexists _, _; reflexivity].
  destruct (customers_csv env) as [cus|]; simpl;
    [|eexists _, _; reflexivity].
  destruct (subscriptions_csv env) as [subs|]; simpl;
    [|eexists _, _; reflexivity].
  eexists. reflexivity.
Qed.

Lemma create_schema_effect_contents env db db0 :
  create_schema_effect env db = Some (tt, db0) -> contents db0 = contents db.
Proof.
  unfold create_schema_effect, execute, schema_sql_statements.
  destruct (schema_sql env); [|discriminate].
  destruct (refuses env cmd_schema); [discriminate|]. simpl.
  intros E. injection E as <-. reflexivity.
Qed.

Lemma engine_connect_spec env db l :
  engine_connect env (db, l)
  = if refuses env cmd_connect then (inr (SqlError cmd_connect), (db, l))
    else (inl tt, (db, l ++ [sql cmd_connect])).
Proof. unfold engine_connect. destruct (refuses env cmd_connect); reflexivity. Qed.

(** A run ends with the database of [pipeline_effect] when it succeeds,
    and with the rows it found when it fails. *)
Lemma pipeline_spec env db l :
  match pipeline_effect env db with
  | Some db' => exists l', pipeline env (db, l) = (inl tt, (db', l'))
  | None =>
      exists x db' l',
        pipeline env (db, l) = (inr x, (db', l')) /\ contents db' = contents db
  end.
Proof.
  unfold pipeline_effect, pipeline, run.
  rewrite (bind_inl (logging info_starting) _ (db, l) tt
             (db, l ++ [info_starting]) eq_refl).
  pose proof (extract_data_from_files_spec env db (l ++ [info_starting])) as Hx.
  destruct (extracted env) as [dataframes|].
  2:{ destruct Hx as [x [l1 E]]. rewrite (bind_inr _ _ _ _ _ E).
      exists x, db, l1. auto. }
  destruct Hx as [l1 E]. rewrite (bind_inl _ _ _ _ _ E). clear E.
  pose proof (engine_connect_spec env db l1) as Hc.
  destruct (refuses env cmd_connect).
  { rewrite (bind_inr _ _ _ _ _ Hc). eexists _, db, _. split; reflexivity. }
  rewrite (bind_inl _ _ _ _ _ Hc). clear Hc.
  pose proof (atomic_with_conn_begin _ _ (agrees_create_schema env) db
                (l1 ++ [sql cmd_connect])) as Hs.
  destruct (create_schema_effect env db) as [[[] db0]|] eqn:Es.
  2:{ destruct Hs as [x [l2 E]]. rewrite (bind_inr _ _ _ _ _ E).
      exists x, db, l2. auto. }
  destruct Hs as [l2 E]. rewrite (bind_inl _ _ _ _ _ E). clear E.
  pose proof (atomic_with_conn_begin _ _
                (agrees_load_and_transform env dataframes) db0 l2) as Ht.
  destruct (and_then (load_effect env dataframes)
              (fun _ => transform_effect env) db0) as [[[] db1]|].
  2:{ destruct Ht as [x [l3 E]]. rewrite (bind_inr _ _ _ _ _ E).
      exists x, db0, l3. split; [reflexivity|].
      eapply create_schema_effect_contents; eassumption. }
  destruct Ht as [l3 E]. rewrite (bind_inl _ _ _ _ _ E). clear E.
  simpl. eexists. reflexivity.
Qed.

Lemma load_effect_eq env evs cus subs db :
  load_effect env
    [(app_events, df_app_events evs); (customers, df_customers cus);
     (subscriptions, df_subscriptions subs)] db
  = if accepts_all env load_commands then Some (tt, loaded evs cus subs db)
    else None.
Proof.
  unfold load_effect, accepts_all, load_commands, execute, and_then, loaded.
  cbn [each forallb fst snd]. unfold and_then.
  destruct (refuses env (cmd_truncate app_events)); [reflexivity|].
  destruct (refuses env (cmd_to_sql app_events)); [reflexivity|]. simpl.
  destruct (refuses env (cmd_truncate customers)); [reflexivity|].
  destruct (refuses env (cmd_to_sql customers)); [reflexivity|]. simpl.
  destruct (refuses env (cmd_truncate subscriptions)); [reflexivity|].
  destruct (refuses env (cmd_to_sql subscriptions)); reflexivity.
Qed.

Lemma transform_effect_eq env db :
  transform_effect env db
  = if accepts_all env transform_commands
    then option_map (pair tt) (transformed (peer_order env) db)
    else None.
Proof.
  unfold transform_effect, accepts_all, transform_commands, transform_order,
    execute, transformed.
  cbn [each forallb]. unfold and_then. cbn [TRANSFORM_SQL].
  destruct (refuses env (cmd_transform dim_customer)); [reflexivity|].
  destruct (dim_customer_sql db) as [db1|]; cbn [option_map negb andb].
  2:{ repeat match goal with
        | |- context [refuses env ?c] => destruct (refuses env c)
        end; reflexivity. }
  destruct (refuses env (cmd_transform dim_plan)); [reflexivity|].
  rewrite dim_plan_sql_eq. cbn [option_map negb andb].
  destruct (refuses env (cmd_transform fact_app_usage)); [reflexivity|].
  destruct (refuses env (cmd_transform fact_subscription_events)); reflexivity.
Qed.

Lemma transformed_loaded po evs cus subs db :
  transformed po (loaded evs cus subs db)
  = if has_dup String.eqb (map c_customer_id cus) then None
    else Some
           (fact_subscription_events_sql
              (fact_app_usage_sql
                 (mk_database (schema_present db) evs cus subs
                    (fst (upsert_all String.eqb c_customer_id dc_customer_id
                            excluded_customer update_customer 0 cus
                            (analytics_dim_customer db)))
                    (fst (upsert_all plan_key_eqb s_partition p_unique_key
                            excluded_plan update_plan
                            (analytics_dim_plan_plan_key_seq db)
                            (top_ranked (po subs)) (analytics_dim_plan db)))
                    (snd (upsert_all plan_key_eqb s_partition p_unique_key
                            excluded_plan update_plan
                            (analytics_dim_plan_plan_key_seq db)
                            (top_ranked (po subs)) (analytics_dim_plan db)))
                    (analytics_dim_date db) (analytics_fact_app_usage db)
                    (analytics_fact_subscription_events db)))).
Proof.
  unfold transformed, dim_customer_sql, insert_on_conflict_do_update, loaded.
  cbn [stg_customers_raw analytics_dim_customer].
  destruct (has_dup String.eqb (map c_customer_id cus)); [reflexivity|].
  destruct (upsert_all String.eqb c_customer_id dc_customer_id excluded_customer
              update_customer 0 cus (analytics_dim_customer db)) as [T n].
  rewrite dim_plan_sql_eq. reflexivity.
Qed.

(** Whether a run succeeds is settled by what it meets outside the
    database, and a run that succeeds ends with [rebuilt]. *)
Lemma pipeline_effect_eq env db :
  pipeline_effect env db
  = match app_events_json env, customers_csv env, subscriptions_csv env with
    | Some evs, Some cus, Some subs =>
        if run_succeeds env cus
        then Some (rebuilt (peer_order env) evs cus subs db)
        else None
    | _, _, _ => None
    end.
Proof.
  unfold pipeline_effect, extracted, run_succeeds.
  destruct (app_events_json env) as [evs|]; [|reflexivity].
  destruct (customers_csv env) as [cus|]; [|reflexivity].
  destruct (subscriptions_csv env) as [subs|]; [|reflexivity].
  unfold and_then.
  unfold create_schema_effect, execute, accepts_all at 1. cbn [forallb].
  destruct (schema_sql env); [|destruct (refuses env cmd_connect); reflexivity].
  destruct (refuses env cmd_connect); [reflexivity|].
  destruct (refuses env cmd_schema); [reflexivity|].
  cbn [negb andb option_map schema_sql_statements].
  rewrite load_effect_eq.
  destruct (accepts_all env load_commands); [|reflexivity].
  rewrite transform_effect_eq.
  destruct (accepts_all env transform_commands); [|reflexivity].
  fold (loaded evs cus subs
          (mk_database true (stg_app_events_raw db) (stg_customers_raw db)
             (stg_subscriptions_raw db) (analytics_dim_customer db)
             (analytics_dim_plan db) (analytics_dim_plan_plan_key_seq db)
             (analytics_dim_date db) (analytics_fact_app_usage db)
             (analytics_fact_subscription_events db))).
  rewrite transformed_loaded.
  destruct (has_dup String.eqb (map c_customer_id cus)); reflexivity.
Qed.

Lemma pipeline_success env db l w :
  pipeline env (db, l) = (inl tt, w) ->
  exists evs cus subs,
    app_events_json env = Some evs /\ customers_csv env = Some cus /\
    subscriptions_csv env = Some subs /\ run_succeeds env cus = true /\
    fst w = rebuilt (peer_order env) evs cus subs db.
Proof.
  intros E. pose proof (pipeline_spec env db l) as H.
  rewrite pipeline_effect_eq in H.
  destruct (app_events_json env) as [evs|];
    [destruct (customers_csv env) as [cus|];
     [destruct (subscriptions_csv env) as [subs|];
      [destruct (run_succeeds env cus) eqn:Hok|]|]|];
    try (destruct H as [x [db' [l' [H _]]]]; congruence).
  destruct H as [l' H]. rewrite H in E. injection E as <-.
  exists evs, cus, subs. auto.
Qed.

Lemma pipeline_failure env db l x w :
  pipeline env (db, l) = (inr x, w) ->
  contents (fst w) = contents db /\
  forall db', pipeline_effect env db' = None.
Proof.
  intros E. pose proof (pipeline_spec env db l) as H.
  assert (pipeline_effect env db = None) as Hnone.
  { destruct (pipeline_effect env db); [|reflexivity].
    destruct H as [l' H]. congruence. }
  rewrite Hnone in H. destruct H as [x' [db' [l' [H Hc]]]].
  rewrite H in E. injection E as _ <-. split; [exact Hc|].
  intros db2. rewrite pipeline_effect_eq in Hnone |- *.
  destruct (app_events_json env); [|reflexivity].
  destruct (customers_csv env) as [cus|]; [|reflexivity].
  destruct (subscriptions_csv env); [|reflexivity].
  destruct (run_succeeds env cus); [discriminate | reflexivity].
Qed.




(** ** The run as a whole *)




(** C10: when a run raises, whichever step raised (a load or a statement
    of the transformation among them, which share one transaction), every
    staging relation and every analytics relation holds the rows it held
    before the run. *)
Theorem load_and_transform_all_or_nothing
  (env : environment) (db : database) (l : list event) (x : exn) (w : world) :
  pipeline env (db, l) = (inr x, w) ->
  contents (fst w) = contents db.
Proof.
  intros E. apply (pipeline_failure env db l x w E).
Qed.

Lemma load_and_transform_all_or_nothing_witness :
  contents (fst (snd (pipeline duplicate_customers_environment (sample_database, []))))
  = contents sample_database.
Proof.
  apply (load_and_transform_all_or_nothing duplicate_customers_environment
           sample_database [] (SqlError (cmd_transform dim_customer))).
  vm_compute. reflexivity.
Defined.

(** The failing statement came after the three loads, inside the
    transaction they share, and the rollback undid them. *)
Example duplicate_customers_run :
  snd (main duplicate_customers_environment sample_database)
  = [info_starting; info_step 1; info_reading app_events;
     info_read app_events 2; info_reading customers; info_read customers 3;
     info_reading subscriptions; info_read subscriptions 3;
     sql cmd_connect; sql_begin; info_step 0; sql cmd_schema;
     info_schema_created; sql_commit;
     sql_begin; info_step 2;
     info_truncating_and_loading app_events;
     sql (cmd_truncate app_events); sql (cmd_to_sql app_events);
     info_loaded app_events 2;
     info_truncating_and_loading customers;
     sql (cmd_truncate customers); sql (cmd_to_sql customers);
     info_loaded customers 3;
     info_truncating_and_loading subscriptions;
     sql (cmd_truncate subscriptions); sql (cmd_to_sql subscriptions);
     info_loaded subscriptions 3;
     info_step 3; info_executing_transform dim_customer;
     sql (cmd_transform dim_customer);
     error_failed_to_execute_transform dim_customer; sql_rollback;
     error_pipeline_failed (SqlError (cmd_transform dim_customer))] /\
  fst (main duplicate_customers_environment sample_database) = sample_database.
Proof. split; reflexivity. Qed.

(** ** The usage fact *)





(** Of the two sample events, the one of 2024-01-15 has a date entry and
    gives one fact row; the one of 2025-06-30 has none, gives no row, and
    the run succeeds all the same. *)
Example sample_fact_app_usage :
  map (fun e => cast_date (e_event_timestamp e)) sample_app_events
  = [mkDate 2024 1 15; mkDate 2025 6 30] /\
  analytics_fact_app_usage sample_database
  = [mk_fact_app_usage (mkTimestamp (mkDate 2024 1 15) 30600) 20240115 "c1"
       "login" "dashboard" (Some "mobile"%string)] /\
  fst (pipeline sample_environment (sample_initial_database, [])) = inl tt.
Proof. repeat split; reflexivity. Qed.

(** ** The order of the phases *)

Lemma appends_ret {A : Type} (a : A) : appends (ret a).
Proof. intros w r w' E. injection E as _ <-. exists []. symmetry. apply app_nil_r. Qed.

Lemma appends_raise {A : Type} (x : exn) : appends (@raise A x).
Proof. intros w r w' E. injection E as _ <-. exists []. symmetry. apply app_nil_r. Qed.

Lemma appends_logging ev : appends (logging ev).
Proof. intros w r w' E. injection E as _ <-. eexists. reflexivity. Qed.

Lemma appends_bind {A B : Type} (m : M A) (k : A -> M B) :
  appends m -> (forall a, appends (k a)) -> appends (bind m k).
Proof.
  intros Hm Hk w r w' E. unfold bind in E.
  destruct (m w) as [[a|x] w1] eqn:Em.
  - destruct (Hm _ _ _ Em) as [l1 E1]. destruct (Hk a _ _ _ E) as [l2 E2].
    exists (l1 ++ l2). rewrite E2, E1. symmetry. apply app_assoc.
  - injection E as _ <-. apply (Hm _ _ _ Em).
Qed.

Lemma appends_try_except_log {A : Type} (m : M A) ev :
  appends m -> appends (try_except_log m ev).
Proof.
  intros Hm w r w' E. unfold try_except_log in E.
  destruct (m w) as [[a|x] w1] eqn:Em.
  - injection E as _ <-. apply (Hm _ _ _ Em).
  - injection E as _ <-. destruct (Hm _ _ _ Em) as [l1 E1].
    exists (l1 ++ [ev]). simpl. rewrite E1. symmetry. apply app_assoc.
Qed.

Lemma appends_conn_execute env c statement :
  appends (conn_execute env c statement).
Proof.
  intros w r w' E. unfold conn_execute in E. exists [sql c].
  destruct (refuses env c); [injection E as _ <-; reflexivity|].
  destruct (statement (fst w)); injection E as _ <-; reflexivity.
Qed.

Lemma appends_with_conn_begin {A : Type} (block : M A) :
  appends block -> appends (with_conn_begin block).
Proof.
  intros Hb w r w' E. unfold with_conn_begin in E.
  destruct (block (fst w, snd w ++ [sql_begin])) as [[a|x] w1] eqn:Eb;
    destruct (Hb _ _ _ Eb) as [l1 E1]; simpl in E1;
    injection E as _ <-; simpl; rewrite E1, <- !app_assoc; eexists; reflexivity.
Qed.

Lemma appends_for_each {A : Type} (l : list A) (body : A -> M unit) :
  (forall a, appends (body a)) -> appends (for_each l body).
Proof.
  intros Hbody. induction l as [|a l IH]; simpl.
  - apply appends_ret.
  - apply appends_bind; [apply Hbody | intros _; apply IH].
Qed.

Lemma appends_engine_connect env : appends (engine_connect env).
Proof.
  intros w r w' E. unfold engine_connect in E.
  destruct (refuses env cmd_connect); injection E as _ <-.
  - exists []. symmetry. apply app_nil_r.
  - eexists. reflexivity.
Qed.

Ltac appends_steps :=
  repeat lazymatch goal with
    | |- appends (logging _) => apply appends_logging
    | |- appends (ret _) => apply appends_ret
    | |- appends (raise _) => apply appends_raise
    | |- appends (conn_execute _ _ _) => apply appends_conn_execute
    | |- appends (engine_connect _) => apply appends_engine_connect
    | |- appends (try_except_log _ _) => apply appends_try_except_log
    | |- appends (with_conn_begin _) => apply appends_with_conn_begin
    | |- appends (for_each _ _) => apply appends_for_each; intros ?
    | |- appends (bind _ _) => apply appends_bind; [|intros ?]
    | |- appends (let (_, _) := ?p in _) => destruct p
    | |- appends (if ?b then _ else _) => destruct b
    end.

Lemma appends_after_extraction env dataframes :
  appends
    (bind (engine_connect env)
       (fun _ =>
          bind (with_conn_begin (create_schema env))
            (fun _ =>
               bind
                 (with_conn_begin
                    (bind (load_data_to_staging_with_sql env dataframes)
                       (fun _ => transform_data_in_analytics env)))
                 (fun _ => logging info_finished)))).
Proof.
  unfold create_schema, load_data_to_staging_with_sql,
    transform_data_in_analytics.
  appends_steps.
Qed.

Lemma extract_data_from_files_log env db l r w' :
  extract_data_from_files env (db, l) = (r, w') ->
  exists rest,
    snd w' = l ++ [info_step 1; info_reading app_events] ++ rest /\
    ~ In sql_begin rest.
Proof.
  unfold extract_data_from_files, SOURCE_FILES, read_file,
    bind, logging, try_except_log, ret, raise.
  destruct (app_events_json env) as [evs|]; simpl;
    [destruct (customers_csv env) as [cus|]; simpl;
     [destruct (subscriptions_csv env) as [subs|]; simpl|]|];
    intros E; injection E as _ <-; simpl; rewrite <- !app_assoc; simpl;
    eexists; (split; [reflexivity|]); simpl; intuition discriminate.
Qed.

(** The log of the sample run: the three source files are read first; the
    connection is opened, and the schema transaction begun, only after
    the last of them is read.  The load and the transformation follow in
    a second transaction. *)
Example sample_run_log :
  snd (main sample_environment sample_initial_database)
  = [info_starting;
     info_step 1;
     info_reading app_events; info_read app_events 2;
     info_reading customers; info_read customers 2;
     info_reading subscriptions; info_read subscriptions 3;
     sql cmd_connect;
     sql_begin; info_step 0; sql cmd_schema; info_schema_created; sql_commit;
     sql_begin;
     info_step 2;
     info_truncating_and_loading app_events;
     sql (cmd_truncate app_events); sql (cmd_to_sql app_events);
     info_loaded app_events 2;
     info_truncating_and_loading customers;
     sql (cmd_truncate customers); sql (cmd_to_sql customers);
     info_loaded customers 2;
     info_truncating_and_loading subscriptions;
     sql (cmd_truncate subscriptions); sql (cmd_to_sql subscriptions);
     info_loaded subscriptions 3;
     info_step 3;
     info_executing_transform dim_customer; sql (cmd_transform dim_customer);
     info_executing_transform dim_plan; sql (cmd_transform dim_plan);
     info_executing_transform fact_app_usage; sql (cmd_transform fact_app_usage);
     info_executing_transform fact_subscription_events;
     sql (cmd_transform fact_subscription_events);
     info_analytics_loaded;
     sql_commit;
     info_finished].
Proof. reflexivity. Qed.

(** When the first file cannot be read the run stops there: nothing is
    sent to the server and the schema is not created. *)
Example unreadable_file_stops_before_bootstrap :
  main unreadable_events_environment empty_database
  = (empty_database,
     [info_starting; info_step 1; info_reading app_events;
      error_failed_to_process app_events;
      error_pipeline_failed (FileError app_events)]).
Proof. reflexivity. Qed.

(** C6: every run starts with the extraction: the first thing it does
    after its opening line is to read the first source file, before the
    connection is opened and before the transaction of the schema
    begins. *)
Theorem main_reads_a_file_before_bootstrap (env : environment) (db : database) :
  exists rest,
    snd (main env db)
    = [info_starting; info_step 1; info_reading app_events] ++ rest.
Proof.
  unfold main, pipeline, run.
  rewrite (bind_inl (logging info_starting) _ (db, []) tt
             (db, [info_starting]) eq_refl).
  destruct (extract_data_from_files env (db, [info_starting]))
    as [[dataframes|x] w1] eqn:E;
    destruct (extract_data_from_files_log _ _ _ _ _ E) as [rest1 [E1 _]].
  - rewrite (bind_inl _ _ _ _ _ E).
    match goal with
    | |- context [bind (engine_connect env) ?k w1] =>
        destruct (bind (engine_connect env) k w1) as [[[]|x] w2] eqn:E2
    end;
      destruct (appends_after_extraction env dataframes _ _ _ E2) as [l2 El2];
      simpl; rewrite El2, E1;
      simpl; rewrite <- ?app_assoc; eexists; reflexivity.
  - rewrite (bind_inr _ _ _ _ _ E). simpl. rewrite E1. simpl.
    eexists. reflexivity.
Qed.

(** * Further properties of the statements and of the run *)

(** ** What an upsert keeps *)

Section InsertOnConflictKeeps.
Context {Src Row K X : Type}.
Variable eqK : K -> K -> bool.
Variable keyS : Src -> K.
Variable keyR : Row -> K.
Variable excluded : Z -> Src -> Row.
Variable do_update : Src -> Row -> Row.
Variable kept : Row -> X.

Hypothesis eqK_eq : forall a b, eqK a b = true <-> a = b.
Hypothesis kept_update : forall s r, kept (do_update s r) = kept r.





End InsertOnConflictKeeps.

(** ** The customer dimension *)

Lemma dim_customer_sql_some db db' :
  dim_customer_sql db = Some db' ->
  NoDup (map c_customer_id (stg_customers_raw db)) /\
  db' = mk_database (schema_present db) (stg_app_events_raw db)
          (stg_customers_raw db) (stg_subscriptions_raw db)
          (fst (upsert_all String.eqb c_customer_id dc_customer_id
                  excluded_customer update_customer 0
                  (stg_customers_raw db) (analytics_dim_customer db)))
          (analytics_dim_plan db) (analytics_dim_plan_plan_key_seq db)
          (analytics_dim_date db) (analytics_fact_app_usage db)
          (analytics_fact_subscription_events db).
Proof.
  unfold dim_customer_sql, insert_on_conflict_do_update.
  destruct (has_dup String.eqb (map c_customer_id (stg_customers_raw db)))
    eqn:Hd; [discriminate|].
  apply (has_dup_false_iff String.eqb String.eqb_eq) in Hd.
  destruct (upsert_all _ _ _ _ _ _ _ _) as [T n]. intros E.
  injection E as <-. auto.
Qed.

(** After the customer statement, the dimension row of every staging
    customer carries the staging values of all four attributes, whatever
    it held before (last write wins), and it is the only row of that
    customer. *)
Theorem dim_customer_overwrites_attributes
  (db db' : database) (c : customers_raw) :
  dim_customer_sql db = Some db' ->
  NoDup (map dc_customer_id (analytics_dim_customer db)) ->
  In c (stg_customers_raw db) ->
  filter (fun r => String.eqb (c_customer_id c) (dc_customer_id r))
    (analytics_dim_customer db')
  = [mk_dim_customer (c_customer_id c) (c_company_name c) (c_country c)
       (c_address c) (c_signup_date c)].
Proof.
  intros E Hnd Hc. destruct (dim_customer_sql_some _ _ E) as [Hstg ->].
  cbn [analytics_dim_customer].
  pose proof (upsert_all_settles String.eqb c_customer_id dc_customer_id
                excluded_customer update_customer String.eqb_eq
                (fun _ _ => eq_refl) (fun _ _ => eq_refl)
                (fun _ _ => eq_refl) (fun _ _ => eq_refl)
                (stg_customers_raw db) 0 (analytics_dim_customer db) c
                Hstg Hc) as [Hex Hfix].
  apply existsb_exists in Hex. destruct Hex as [r [Hr Cr]].
  pose proof (Hfix r Hr Cr) as Eup.
  unfold conflicts in Cr. apply String.eqb_eq in Cr.
  apply (filter_key_exactly_one dc_customer_id _ (c_customer_id c)).
  - intros a. rewrite String.eqb_eq. split; congruence.
  - apply upsert_all_NoDup; auto using String.eqb_eq.
  - rewrite <- Eup in Hr. unfold update_customer in Hr. rewrite <- Cr in Hr.
    exact Hr.
  - reflexivity.
Qed.

Lemma dim_customer_overwrites_attributes_witness :
  filter (fun r => String.eqb (c_customer_id moved_customer) (dc_customer_id r))
    (analytics_dim_customer moved_database_after_dim_customer)
  = [mk_dim_customer "c1" "Acme" "FR" "9 avenue Z" (mkDate 2023 12 1)].
Proof.
  apply (dim_customer_overwrites_attributes moved_database
           moved_database_after_dim_customer moved_customer).
  - reflexivity.
  - simpl. repeat constructor; simpl; intuition discriminate.
  - left. reflexivity.
Defined.



(** ** The plan dimension, continued *)



(** ** Facts and dimensions after a run *)

Lemma rebuilt_customer_settled po evs cus subs db c :
  NoDup (map c_customer_id cus) -> In c cus ->
  In (c_customer_id c)
    (map dc_customer_id (analytics_dim_customer (rebuilt po evs cus subs db))).
Proof.
  intros Hnd Hc.
  pose proof (upsert_all_settles String.eqb c_customer_id dc_customer_id
                excluded_customer update_customer String.eqb_eq
                (fun _ _ => eq_refl) (fun _ _ => eq_refl)
                (fun _ _ => eq_refl) (fun _ _ => eq_refl)
                cus 0 (analytics_dim_customer db) c Hnd Hc) as [Hex _].
  apply (existsb_conflicts_iff String.eqb c_customer_id dc_customer_id
           String.eqb_eq) in Hex.
  exact Hex.
Qed.

Lemma run_succeeds_NoDup env cus :
  run_succeeds env cus = true -> NoDup (map c_customer_id cus).
Proof.
  unfold run_succeeds. intros H. apply andb_true_iff in H.
  destruct H as [_ H]. apply negb_true_iff in H.
  apply (has_dup_false_iff String.eqb String.eqb_eq). exact H.
Qed.

(** After a run that succeeds, every row of the subscription fact points
    at rows that exist: its customer is in the customer dimension, its
    plan key is the key of a plan row, and its date key is the key of a
    date entry. *)
Theorem subscription_facts_reference_dimensions
  (env : environment) (db : database) (l : list event) (w : world)
  (f : fact_subscription_events_row) :
  pipeline env (db, l) = (inl tt, w) ->
  In f (analytics_fact_subscription_events (fst w)) ->
  In (fs_customer_id f) (map dc_customer_id (analytics_dim_customer (fst w))) /\
  In (fs_plan_key f) (map p_plan_key (analytics_dim_plan (fst w))) /\
  In (fs_date_key f) (map d_date_key (analytics_dim_date (fst w))).
Proof.
  intros E Hf.
  destruct (pipeline_success env db l w E)
    as (evs & cus & subs & _ & _ & _ & Hok & Hw).
  rewrite Hw in Hf |- *. unfold rebuilt in Hf.
  apply in_fact_subscription_events in Hf.
  destruct Hf as (s & c & p & d & J & ->).
  destruct J as (_ & Hc & Hp & Hd & _).
  cbn [stg_customers_raw analytics_dim_plan analytics_dim_date
       fact_app_usage_sql] in Hc, Hp, Hd.
  split; [|split].
  - apply rebuilt_customer_settled; [|assumption].
    apply (run_succeeds_NoDup env), Hok.
  - apply (in_map p_plan_key) in Hp. exact Hp.
  - apply (in_map d_date_key) in Hd. exact Hd.
Qed.

Lemma subscription_facts_reference_dimensions_witness :
  In (fs_customer_id sample_fact_s3)
    (map dc_customer_id (analytics_dim_customer sample_database)) /\
  In (fs_plan_key sample_fact_s3)
    (map p_plan_key (analytics_dim_plan sample_database)) /\
  In (fs_date_key sample_fact_s3)
    (map d_date_key (analytics_dim_date sample_database)).
Proof.
  apply (subscription_facts_reference_dimensions sample_environment
           sample_initial_database []
           (snd (pipeline sample_environment (sample_initial_database, [])))
           sample_fact_s3).
  - vm_compute. reflexivity.
  - vm_compute. right. left. reflexivity.
Defined.

(** After a run that succeeds, the join on the plan dimension drops no
    subscription: the plan statement ran before the facts were rebuilt, so
    every staging subscription that has a customer and a date entry has
    its fact row, with the key of the plan row of its name and period. *)
Theorem subscription_fact_never_lacks_a_plan
  (env : environment) (db : database) (l : list event) (w : world)
  (s : subscriptions_raw) (c : customers_raw) (d : dim_date_row) :
  pipeline env (db, l) = (inl tt, w) ->
  Permutation (peer_order env (stg_subscriptions_raw (fst w)))
    (stg_subscriptions_raw (fst w)) ->
  In s (stg_subscriptions_raw (fst w)) ->
  In c (stg_customers_raw (fst w)) ->
  In d (analytics_dim_date (fst w)) ->
  s_subscription_id s = c_subscription_id c ->
  s_start_date s = d_full_date d ->
  exists p,
    In p (analytics_dim_plan (fst w)) /\
    p_plan_name p = s_plan_name s /\ p_period p = s_period s /\
    In (subscription_fact s c p d) (analytics_fact_subscription_events (fst w)).
Proof.
  intros E.
  destruct (pipeline_success env db l w E)
    as (evs & cus & subs & _ & _ & _ & _ & Hw).
  rewrite Hw. clear E Hw w.
  assert (stg_subscriptions_raw (rebuilt (peer_order env) evs cus subs db) = subs)
    as -> by reflexivity.
  intros HP Hs Hc Hd E1 E2.
  assert (In s (peer_order env subs)) as Hs'.
  { eapply Permutation_in; [apply Permutation_sym|]; eassumption. }
  destruct (top_ranked_covers _ _ Hs') as [r [Hr Er]].
  pose proof (upsert_all_settles plan_key_eqb s_partition p_unique_key
                excluded_plan update_plan plan_key_eqb_eq
                (fun _ _ => eq_refl) (fun _ _ => eq_refl)
                (fun _ _ => eq_refl) (fun _ _ => eq_refl)
                (top_ranked (peer_order env subs))
                (analytics_dim_plan_plan_key_seq db) (analytics_dim_plan db) r
                (top_ranked_NoDup _) Hr) as [Hex _].
  apply existsb_exists in Hex. destruct Hex as [p [Hp Cp]].
  unfold conflicts in Cp. apply plan_key_eqb_eq in Cp.
  rewrite Er in Cp. unfold s_partition, p_unique_key in Cp.
  injection Cp as Cn Cq.
  exists p. split; [exact Hp|]. split; [auto|]. split; [auto|].
  unfold rebuilt. apply in_fact_subscription_events.
  exists s, c, p, d. split; [|reflexivity].
  unfold joined. cbn [stg_subscriptions_raw stg_customers_raw
    analytics_dim_plan analytics_dim_date fact_app_usage_sql].
  repeat split; assumption.
Qed.

Lemma subscription_fact_never_lacks_a_plan_witness :
  exists p,
    In p (analytics_dim_plan sample_database) /\
    p_plan_name p = "Pro"%string /\ p_period p = "yearly"%string /\
    In (subscription_fact
          (mk_subscription "s3" "Pro" "yearly" 120 "EUR" "cancelled"
             (mkDate 2024 2 1) None)
          (mk_customer "c2" "Bolt" "ES" "2 calle B" (mkDate 2023 12 2) "s3")
          p (mk_dim_date 20240201 (mkDate 2024 2 1)))
      (analytics_fact_subscription_events sample_database).
Proof.
  apply (subscription_fact_never_lacks_a_plan sample_environment
           sample_initial_database []
           (snd (pipeline sample_environment (sample_initial_database, [])))
           (mk_subscription "s3" "Pro" "yearly" 120 "EUR" "cancelled"
              (mkDate 2024 2 1) None)
           (mk_customer "c2" "Bolt" "ES" "2 calle B" (mkDate 2023 12 2) "s3")
           (mk_dim_date 20240201 (mkDate 2024 2 1))).
  - vm_compute. reflexivity.
  - apply Permutation_refl.
  - vm_compute. right. right. left. reflexivity.
  - vm_compute. right. left. reflexivity.
  - vm_compute. right. left. reflexivity.
  - reflexivity.
  - reflexivity.
Defined.

(** ** Extraction *)

(** An extraction that succeeds has read every file of [SOURCE_FILES], in
    that order, returns one frame for each source under its name, holding
    the rows of its file, and has not touched the database. *)
Theorem extract_returns_one_frame_per_source
  (env : environment) (db : database) (l : list event)
  (dataframes : list (source * DataFrame)) (w : world) :
  extract_data_from_files env (db, l) = (inl dataframes, w) ->
  fst w = db /\
  map fst dataframes = SOURCE_FILES /\
  (forall s df, In (s, df) dataframes -> read_file env s = Some df) /\
  snd w = l ++ info_step 1 :: flat_map (reading_log env) SOURCE_FILES.
Proof.
  unfold extract_data_from_files, SOURCE_FILES, reading_log, read_file,
    bind, logging, try_except_log, ret, raise.
  destruct (app_events_json env) as [evs|]; simpl; [|discriminate].
  destruct (customers_csv env) as [cus|]; simpl; [|discriminate].
  destruct (subscriptions_csv env) as [subs|]; simpl; [|discriminate].
  intros E. injection E as <- <-. simpl. rewrite <- !app_assoc. simpl.
  repeat split.
  intros s df [H|[H|[H|[]]]]; injection H as <- <-; reflexivity.
Qed.

Lemma extract_returns_one_frame_per_source_witness :
  fst (snd (extract_data_from_files sample_environment (sample_initial_database, [])))
  = sample_initial_database /\
  map fst [(app_events, df_app_events sample_app_events);
           (customers, df_customers sample_customers);
           (subscriptions, df_subscriptions sample_subscriptions)]
  = SOURCE_FILES /\
  (forall s df,
      In (s, df) [(app_events, df_app_events sample_app_events);
                  (customers, df_customers sample_customers);
                  (subscriptions, df_subscriptions sample_subscriptions)] ->
      read_file sample_environment s = Some df) /\
  snd (snd (extract_data_from_files sample_environment (sample_initial_database, [])))
  = [] ++ info_step 1 :: flat_map (reading_log sample_environment) SOURCE_FILES.
Proof.
  apply (extract_returns_one_frame_per_source sample_environment
           sample_initial_database []
           [(app_events, df_app_events sample_app_events);
            (customers, df_customers sample_customers);
            (subscriptions, df_subscriptions sample_subscriptions)]
           (snd (extract_data_from_files sample_environment
                   (sample_initial_database, [])))).
  reflexivity.
Defined.

(** An extraction that fails stops at the first file it cannot read: the
    files before it were read, none after it is opened, the error names
    that file, the log ends with it, and the database is untouched. *)
Theorem extract_stops_at_first_unreadable_file
  (env : environment) (db : database) (l : list event) (x : exn) (w : world) :
  extract_data_from_files env (db, l) = (inr x, w) ->
  fst w = db /\
  exists before s after,
    SOURCE_FILES = before ++ s :: after /\
    x = FileError s /\
    read_file env s = None /\
    (forall s', In s' before -> read_file env s' <> None) /\
    snd w = l ++ info_step 1 :: flat_map (reading_log env) before
              ++ [info_reading s; error_failed_to_process s].
Proof.
  unfold extract_data_from_files, SOURCE_FILES, reading_log, read_file,
    bind, logging, try_except_log, ret, raise.
  destruct (app_events_json env) as [evs|] eqn:E1; simpl.
  2:{ intros E. injection E as <- <-. split; [reflexivity|].
      exists [], app_events, [customers; subscriptions]. simpl.
      rewrite ?E1, <- ?app_assoc. simpl. repeat split. intros s' []. }
  destruct (customers_csv env) as [cus|] eqn:E2; simpl.
  2:{ intros E. injection E as <- <-. split; [reflexivity|].
      exists [app_events], customers, [subscriptions]. simpl.
      rewrite ?E1, ?E2, <- ?app_assoc. simpl. repeat split.
      intros s' [<-|[]]. simpl. rewrite ?E1. discriminate. }
  destruct (subscriptions_csv env) as [subs|] eqn:E3; simpl; [discriminate|].
  intros E. injection E as <- <-. split; [reflexivity|].
  exists [app_events; customers], subscriptions, []. simpl.
  rewrite ?E1, ?E2, ?E3, <- ?app_assoc. simpl. repeat split.
  intros s' [<-|[<-|[]]]; simpl; rewrite ?E1, ?E2; discriminate.
Qed.

Lemma extract_stops_at_first_unreadable_file_witness :
  fst (snd (extract_data_from_files unreadable_events_environment
              (empty_database, [])))
  = empty_database /\
  exists before s after,
    SOURCE_FILES = before ++ s :: after /\
    FileError app_events = FileError s /\
    read_file unreadable_events_environment s = None /\
    (forall s', In s' before ->
                read_file unreadable_events_environment s' <> None) /\
    snd (snd (extract_data_from_files unreadable_events_environment
                (empty_database, [])))
    = [] ++ info_step 1 :: flat_map (reading_log unreadable_events_environment) before
         ++ [info_reading s; error_failed_to_process s].
Proof.
  apply (extract_stops_at_first_unreadable_file unreadable_events_environment
           empty_database [] (FileError app_events)
           (snd (extract_data_from_files unreadable_events_environment
                   (empty_database, [])))).
  reflexivity.
Defined.

(** ** The staging load *)

(** A load that succeeds leaves in each staging relation the rows of its
    frame and nothing else, whatever the relation held before, and
    changes no analytics relation. *)
Theorem load_replaces_staging
  (env : environment) (evs : list app_events_raw) (cus : list customers_raw)
  (subs : list subscriptions_raw) (db : database) (l : list event) (w : world) :
  load_data_to_staging_with_sql env
    [(app_events, df_app_events evs); (customers, df_customers cus);
     (subscriptions, df_subscriptions subs)] (db, l) = (inl tt, w) ->
  stg_app_events_raw (fst w) = evs /\
  stg_customers_raw (fst w) = cus /\
  stg_subscriptions_raw (fst w) = subs /\
  analytics_dim_customer (fst w) = analytics_dim_customer db /\
  analytics_dim_plan (fst w) = analytics_dim_plan db /\
  analytics_dim_plan_plan_key_seq (fst w) = analytics_dim_plan_plan_key_seq db /\
  analytics_dim_date (fst w) = analytics_dim_date db /\
  analytics_fact_app_usage (fst w) = analytics_fact_app_usage db /\
  analytics_fact_subscription_events (fst w)
  = analytics_fact_subscription_events db.
Proof.
  intros E.
  pose proof (agrees_load_data_to_staging_with_sql env
                [(app_events, df_app_events evs); (customers, df_customers cus);
                 (subscriptions, df_subscriptions subs)] db l) as H.
  rewrite load_effect_eq in H.
  destruct (accepts_all env load_commands).
  - destruct H as [l' H]. rewrite H in E. injection E as <-.
    repeat split.
  - destruct H as [x [db' [l' H]]]. rewrite H in E. discriminate.
Qed.

Lemma load_replaces_staging_witness :
  stg_app_events_raw
    (fst (snd (load_data_to_staging_with_sql sample_environment
                 [(app_events, df_app_events []);
                  (customers, df_customers [moved_customer]);
                  (subscriptions, df_subscriptions tie_subscriptions)]
                 (sample_database, [])))) = [] /\
  stg_customers_raw
    (fst (snd (load_data_to_staging_with_sql sample_environment
                 [(app_events, df_app_events []);
                  (customers, df_customers [moved_customer]);
                  (subscriptions, df_subscriptions tie_subscriptions)]
                 (sample_database, [])))) = [moved_customer] /\
  stg_subscriptions_raw
    (fst (snd (load_data_to_staging_with_sql sample_environment
                 [(app_events, df_app_events []);
                  (customers, df_customers [moved_customer]);
                  (subscriptions, df_subscriptions tie_subscriptions)]
                 (sample_database, [])))) = tie_subscriptions /\
  analytics_dim_customer
    (fst (snd (load_data_to_staging_with_sql sample_environment
                 [(app_events, df_app_events []);
                  (customers, df_customers [moved_customer]);
                  (subscriptions, df_subscriptions tie_subscriptions)]
                 (sample_database, []))))
  = analytics_dim_customer sample_database /\
  analytics_dim_plan
    (fst (snd (load_data_to_staging_with_sql sample_environment
                 [(app_events, df_app_events []);
                  (customers, df_customers [moved_customer]);
                  (subscriptions, df_subscriptions tie_subscriptions)]
                 (sample_database, []))))
  = analytics_dim_plan sample_database /\
  analytics_dim_plan_plan_key_seq
    (fst (snd (load_data_to_staging_with_sql sample_environment
                 [(app_events, df_app_events []);
                  (customers, df_customers [moved_customer]);
                  (subscriptions, df_subscriptions tie_subscriptions)]
                 (sample_database, []))))
  = analytics_dim_plan_plan_key_seq sample_database /\
  analytics_dim_date
    (fst (snd (load_data_to_staging_with_sql sample_environment
                 [(app_events, df_app_events []);
                  (customers, df_customers [moved_customer]);
                  (subscriptions, df_subscriptions tie_subscriptions)]
                 (sample_database, []))))
  = analytics_dim_date sample_database /\
  analytics_fact_app_usage
    (fst (snd (load_data_to_staging_with_sql sample_environment
                 [(app_events, df_app_events []);
                  (customers, df_customers [moved_customer]);
                  (subscriptions, df_subscriptions tie_subscriptions)]
                 (sample_database, []))))
  = analytics_fact_app_usage sample_database /\
  analytics_fact_subscription_events
    (fst (snd (load_data_to_staging_with_sql sample_environment
                 [(app_events, df_app_events []);
                  (customers, df_customers [moved_customer]);
                  (subscriptions, df_subscriptions tie_subscriptions)]
                 (sample_database, []))))
  = analytics_fact_subscription_events sample_database.
Proof.
  apply (load_replaces_staging sample_environment [] [moved_customer]
           tie_subscriptions sample_database []
           (snd (load_data_to_staging_with_sql sample_environment
                   [(app_events, df_app_events []);
                    (customers, df_customers [moved_customer]);
                    (subscriptions, df_subscriptions tie_subscriptions)]
                   (sample_database, [])))).
  reflexivity.
Defined.

(** ** The transformation *)

(** A transformation that fails stops at the first statement that is
    refused or fails: the statements before it were sent in the order of
    [transform_order], none after it is sent, the error names it, and the
    log ends with the line that names it. *)
Theorem transform_stops_at_first_failing_statement
  (env : environment) (db : database) (l : list event) (x : exn) (w : world) :
  transform_data_in_analytics env (db, l) = (inr x, w) ->
  exists before q after,
    transform_order = before ++ q :: after /\
    x = SqlError (cmd_transform q) /\
    snd w = l ++ info_step 3 :: flat_map executing_log (before ++ [q])
              ++ [error_failed_to_execute_transform q].
Proof.
  unfold transform_data_in_analytics, transform_order, executing_log.
  unfold for_each, bind, logging, try_except_log, conn_execute, ret.
  cbn [fst snd].
  destruct (refuses env (cmd_transform dim_customer)).
  { intros E. injection E as <- <-. exists [], dim_customer, [dim_plan; fact_app_usage; fact_subscription_events].
    simpl. rewrite <- !app_assoc. simpl. auto. }
  destruct (TRANSFORM_SQL (peer_order env) dim_customer db) as [db1|].
  2:{ intros E. injection E as <- <-. exists [], dim_customer, [dim_plan; fact_app_usage; fact_subscription_events].
    simpl. rewrite <- !app_assoc. simpl. auto. }
  cbn [fst snd].
  destruct (refuses env (cmd_transform dim_plan)).
  { intros E. injection E as <- <-. exists [dim_customer], dim_plan, [fact_app_usage; fact_subscription_events].
    simpl. rewrite <- !app_assoc. simpl. auto. }
  destruct (TRANSFORM_SQL (peer_order env) dim_plan db1) as [db2|].
  2:{ intros E. injection E as <- <-. exists [dim_customer], dim_plan, [fact_app_usage; fact_subscription_events].
    simpl. rewrite <- !app_assoc. simpl. auto. }
  cbn [fst snd].
  destruct (refuses env (cmd_transform fact_app_usage)).
  { intros E. injection E as <- <-. exists [dim_customer; dim_plan], fact_app_usage, [fact_subscription_events].
    simpl. rewrite <- !app_assoc. simpl. auto. }
  destruct (TRANSFORM_SQL (peer_order env) fact_app_usage db2) as [db3|].
  2:{ intros E. injection E as <- <-. exists [dim_customer; dim_plan], fact_app_usage, [fact_subscription_events].
    simpl. rewrite <- !app_assoc. simpl. auto. }
  cbn [fst snd].
  destruct (refuses env (cmd_transform fact_subscription_events)).
  { intros E. injection E as <- <-. exists [dim_customer; dim_plan; fact_app_usage], fact_subscription_events, [].
    simpl. rewrite <- !app_assoc. simpl. auto. }
  destruct (TRANSFORM_SQL (peer_order env) fact_subscription_events db3) as [db4|].
  2:{ intros E. injection E as <- <-. exists [dim_customer; dim_plan; fact_app_usage], fact_subscription_events, [].
    simpl. rewrite <- !app_assoc. simpl. auto. }
  discriminate.
Qed.

Lemma transform_stops_at_first_failing_statement_witness :
  exists before q after,
    transform_order = before ++ q :: after /\
    SqlError (cmd_transform dim_customer) = SqlError (cmd_transform q) /\
    snd (snd (transform_data_in_analytics sample_environment
                (mk_database true [] (sample_customers ++ sample_customers) []
                   [] [] 1 [] [] [], [])))
    = [] ++ info_step 3 :: flat_map executing_log (before ++ [q])
         ++ [error_failed_to_execute_transform q].
Proof.
  apply (transform_stops_at_first_failing_statement sample_environment
           (mk_database true [] (sample_customers ++ sample_customers) []
              [] [] 1 [] [] [])
           [] (SqlError (cmd_transform dim_customer))
           (snd (transform_data_in_analytics sample_environment
                   (mk_database true [] (sample_customers ++ sample_customers) []
                      [] [] 1 [] [] [], [])))).
  reflexivity.
Defined.

(** A transformation that succeeds has sent the four statements in the
    order of [transform_order], the two dimensions before the two facts,
    each over the database the one before it left, and this only. *)
Theorem transform_runs_dimensions_before_facts
  (env : environment) (db : database) (l : list event) (w : world) :
  transform_data_in_analytics env (db, l) = (inl tt, w) ->
  (exists db1 db2,
      dim_customer_sql db = Some db1 /\
      dim_plan_sql (peer_order env) db1 = Some db2 /\
      fst w = fact_subscription_events_sql (fact_app_usage_sql db2)) /\
  snd w = l ++ info_step 3 :: flat_map executing_log transform_order
            ++ [info_analytics_loaded].
Proof.
  unfold transform_data_in_analytics, transform_order, executing_log.
  unfold for_each, bind, logging, try_except_log, conn_execute, ret.
  cbn [fst snd TRANSFORM_SQL].
  destruct (refuses env (cmd_transform dim_customer)); [discriminate|].
  destruct (dim_customer_sql db) as [db1|] eqn:E1; [|discriminate].
  cbn [fst snd].
  destruct (refuses env (cmd_transform dim_plan)); [discriminate|].
  destruct (dim_plan_sql (peer_order env) db1) as [db2|] eqn:E2; [|discriminate].
  cbn [fst snd].
  destruct (refuses env (cmd_transform fact_app_usage)); [discriminate|].
  cbn [fst snd].
  destruct (refuses env (cmd_transform fact_subscription_events));
    [discriminate|].
  cbn [fst snd]. intros E. injection E as <-. split.
  - exists db1, db2. auto.
  - simpl. rewrite <- !app_assoc. reflexivity.
Qed.

Lemma transform_runs_dimensions_before_facts_witness :
  (exists db1 db2,
      dim_customer_sql moved_database = Some db1 /\
      dim_plan_sql (peer_order sample_environment) db1 = Some db2 /\
      fst (snd (transform_data_in_analytics sample_environment
                  (moved_database, [])))
      = fact_subscription_events_sql (fact_app_usage_sql db2)) /\
  snd (snd (transform_data_in_analytics sample_environment (moved_database, [])))
  = [] ++ info_step 3 :: flat_map executing_log transform_order
       ++ [info_analytics_loaded].
Proof.
  apply (transform_runs_dimensions_before_facts sample_environment
           moved_database []
           (snd (transform_data_in_analytics sample_environment
                   (moved_database, [])))).
  reflexivity.
Defined.

(** ** Where a run leaves the database *)

Lemma pipeline_final_database env db l :
  fst (snd (pipeline env (db, l)))
  = if bootstrap_commits env
    then match pipeline_effect env db with
         | Some db' => db'
         | None => bootstrapped db
         end
    else db.
Proof.
  unfold bootstrap_commits, pipeline_effect, pipeline, run.
  rewrite (bind_inl (logging info_starting) _ (db, l) tt
             (db, l ++ [info_starting]) eq_refl).
  pose proof (extract_data_from_files_spec env db (l ++ [info_starting])) as Hx.
  destruct (extracted env) as [dataframes|].
  2:{ destruct Hx as [x [l1 E]]. rewrite (bind_inr _ _ _ _ _ E). reflexivity. }
  destruct Hx as [l1 E]. rewrite (bind_inl _ _ _ _ _ E). clear E.
  pose proof (engine_connect_spec env db l1) as Hc.
  destruct (refuses env cmd_connect).
  { rewrite (bind_inr _ _ _ _ _ Hc). reflexivity. }
  rewrite (bind_inl _ _ _ _ _ Hc). clear Hc.
  pose proof (atomic_with_conn_begin _ _ (agrees_create_schema env) db
                (l1 ++ [sql cmd_connect])) as Hs.
  unfold create_schema_effect, execute in *.
  destruct (schema_sql env).
  2:{ destruct Hs as [x [l2 E]]. rewrite (bind_inr _ _ _ _ _ E). reflexivity. }
  destruct (refuses env cmd_schema).
  { destruct Hs as [x [l2 E]]. rewrite (bind_inr _ _ _ _ _ E). reflexivity. }
  cbn [negb andb option_map schema_sql_statements] in *.
  destruct Hs as [l2 E]. rewrite (bind_inl _ _ _ _ _ E). clear E.
  fold (bootstrapped db).
  pose proof (atomic_with_conn_begin _ _
                (agrees_load_and_transform env dataframes)
                (bootstrapped db) l2) as Ht.
  destruct (and_then (load_effect env dataframes)
              (fun _ => transform_effect env) (bootstrapped db))
    as [[[] db1]|].
  - destruct Ht as [l3 E]. rewrite (bind_inl _ _ _ _ _ E). reflexivity.
  - destruct Ht as [x [l3 E]]. rewrite (bind_inr _ _ _ _ _ E). reflexivity.
Qed.



(** A run that does not get as far as a committed schema transaction (a
    file cannot be read, the connection does not open, the schema file is
    missing or its statements are refused) leaves the database exactly as
    it found it. *)
Theorem failed_bootstrap_changes_nothing
  (env : environment) (db : database) (l : list event) :
  bootstrap_commits env = false ->
  fst (snd (pipeline env (db, l))) = db.
Proof.
  intros Hb. rewrite pipeline_final_database, Hb. reflexivity.
Qed.

Lemma failed_bootstrap_changes_nothing_witness :
  fst (snd (pipeline unreadable_events_environment (sample_database, [])))
  = sample_database.
Proof.
  apply (failed_bootstrap_changes_nothing unreadable_events_environment
           sample_database []).
  reflexivity.
Defined.






(** ** Transactions *)

Lemma emits_ret P {A : Type} (a : A) : emits P (ret a).
Proof.
  intros w r w' E. injection E as _ <-. exists []. split; [|constructor].
  symmetry. apply app_nil_r.
Qed.

Lemma emits_raise P {A : Type} (x : exn) : emits P (@raise A x).
Proof.
  intros w r w' E. injection E as _ <-. exists []. split; [|constructor].
  symmetry. apply app_nil_r.
Qed.

Lemma emits_logging (P : event -> Prop) ev : P ev -> emits P (logging ev).
Proof.
  intros HP w r w' E. injection E as _ <-. exists [ev]. split; [reflexivity|].
  repeat constructor. exact HP.
Qed.

Lemma emits_bind P {A B : Type} (m : M A) (k : A -> M B) :
  emits P m -> (forall a, emits P (k a)) -> emits P (bind m k).
Proof.
  intros Hm Hk w r w' E. unfold bind in E.
  destruct (m w) as [[a|x] w1] eqn:Em.
  - destruct (Hm _ _ _ Em) as [l1 [E1 F1]].
    destruct (Hk a _ _ _ E) as [l2 [E2 F2]].
    exists (l1 ++ l2). split; [|apply Forall_app; auto].
    rewrite E2, E1. symmetry. apply app_assoc.
  - injection E as _ <-. apply (Hm _ _ _ Em).
Qed.

Lemma emits_try_except_log (P : event -> Prop) {A : Type} (m : M A) ev :
  P ev -> emits P m -> emits P (try_except_log m ev).
Proof.
  intros HP Hm w r w' E. unfold try_except_log in E.
  destruct (m w) as [[a|x] w1] eqn:Em.
  - injection E as _ <-. apply (Hm _ _ _ Em).
  - injection E as _ <-. destruct (Hm _ _ _ Em) as [l1 [E1 F1]].
    exists (l1 ++ [ev]). split.
    + simpl. rewrite E1. symmetry. apply app_assoc.
    + apply Forall_app. split; [assumption|]. repeat constructor. exact HP.
Qed.

Lemma emits_conn_execute (P : event -> Prop) env c statement :
  P (sql c) -> emits P (conn_execute env c statement).
Proof.
  intros HP w r w' E. unfold conn_execute in E. exists [sql c].
  split; [|repeat constructor; exact HP].
  destruct (refuses env c); [injection E as _ <-; reflexivity|].
  destruct (statement (fst w)); injection E as _ <-; reflexivity.
Qed.

Lemma emits_for_each P {A : Type} (l : list A) (body : A -> M unit) :
  (forall a, emits P (body a)) -> emits P (for_each l body).
Proof.
  intros Hbody. induction l as [|a l IH]; simpl.
  - apply emits_ret.
  - apply emits_bind; [apply Hbody | intros _; apply IH].
Qed.

Lemma emits_engine_connect (P : event -> Prop) env :
  P (sql cmd_connect) -> emits P (engine_connect env).
Proof.
  intros HP w r w' E. unfold engine_connect in E.
  destruct (refuses env cmd_connect); injection E as _ <-.
  - exists []. split; [|constructor]. symmetry. apply app_nil_r.
  - exists [sql cmd_connect]. split; [reflexivity|].
    repeat constructor. exact HP.
Qed.

Ltac emits_steps :=
  repeat lazymatch goal with
    | |- emits _ (logging _) => apply emits_logging; try reflexivity
    | |- emits _ (ret _) => apply emits_ret
    | |- emits _ (raise _) => apply emits_raise
    | |- emits _ (conn_execute _ _ _) =>
        apply emits_conn_execute; try reflexivity
    | |- emits _ (engine_connect _) =>
        apply emits_engine_connect; try reflexivity
    | |- emits _ (try_except_log _ _) =>
        apply emits_try_except_log; [try reflexivity|]
    | |- emits _ (for_each _ _) => apply emits_for_each; intros ?
    | |- emits _ (bind _ _) => apply emits_bind; [|intros ?]
    | |- emits _ (let (_, _) := ?p in _) => destruct p
    | |- emits _ (if ?b then _ else _) => destruct b
    end.

(** Nothing but [with conn.begin()] begins or ends a transaction. *)
Lemma create_schema_no_transaction_event env :
  emits (fun ev => is_transaction_event ev = false) (create_schema env).
Proof. unfold create_schema. emits_steps. Qed.

Lemma load_and_transform_no_transaction_event env dataframes :
  emits (fun ev => is_transaction_event ev = false)
    (bind (load_data_to_staging_with_sql env dataframes)
       (fun _ => transform_data_in_analytics env)).
Proof.
  unfold load_data_to_staging_with_sql, transform_data_in_analytics.
  emits_steps.
Qed.

Lemma extract_no_transaction_event env :
  emits (fun ev => is_transaction_event ev = false)
    (extract_data_from_files env).
Proof.
  intros w r w'.
  unfold extract_data_from_files, SOURCE_FILES, read_file,
    bind, logging, try_except_log, ret, raise.
  destruct (app_events_json env) as [evs|]; simpl;
    [destruct (customers_csv env) as [cus|]; simpl;
     [destruct (subscriptions_csv env) as [subs|]; simpl|]|];
    intros E; injection E as _ <-; simpl; rewrite <- !app_assoc; simpl;
    eexists; (split; [reflexivity|]); repeat constructor.
Qed.

Lemma with_conn_begin_log P {A : Type} (block : M A) w r w' :
  emits P block ->
  with_conn_begin block w = (r, w') ->
  exists l',
    Forall P l' /\
    snd w' = snd w ++ [sql_begin] ++ l'
               ++ [match r with inl _ => sql_commit | inr _ => sql_rollback end].
Proof.
  intros Hb E. unfold with_conn_begin in E.
  destruct (block (fst w, snd w ++ [sql_begin])) as [[a|x] w1] eqn:Eb;
    destruct (Hb _ _ _ Eb) as [l1 [E1 F1]]; simpl in E1;
    injection E as <- <-; exists l1; (split; [assumption|]);
    simpl; rewrite E1, <- !app_assoc; reflexivity.
Qed.

Lemma filter_no_transaction_event l :
  Forall (fun ev => is_transaction_event ev = false) l ->
  filter is_transaction_event l = [].
Proof.
  induction 1 as [|ev l Hev _ IH]; simpl; [reflexivity|].
  rewrite Hev. exact IH.
Qed.

Ltac tx_log :=
  repeat first
    [ rewrite filter_app
    | progress cbn [filter is_transaction_event app]
    | match goal with
      | H : filter is_transaction_event _ = [] |- _ => rewrite H
      end ].

(** Every transaction a run begins is ended, on every path: the
    transaction events of the log of a run are none at all, or one
    transaction rolled back, or one committed and a second rolled back,
    or two committed; and they are two commits exactly when the run
    succeeds. *)
Theorem every_transaction_is_ended (env : environment) (db : database) :
  (filter is_transaction_event (snd (main env db)) = []
   \/ filter is_transaction_event (snd (main env db))
      = [sql_begin; sql_rollback]
   \/ filter is_transaction_event (snd (main env db))
      = [sql_begin; sql_commit; sql_begin; sql_rollback]
   \/ filter is_transaction_event (snd (main env db))
      = [sql_begin; sql_commit; sql_begin; sql_commit]) /\
  (fst (pipeline env (db, [])) = inl tt <->
   filter is_transaction_event (snd (main env db))
   = [sql_begin; sql_commit; sql_begin; sql_commit]).
Proof.
  unfold main, pipeline, run.
  rewrite (bind_inl (logging info_starting) _ (db, []) tt
             (db, [info_starting]) eq_refl).
  destruct (extract_data_from_files env (db, [info_starting]))
    as [[dataframes|x] w1] eqn:E1;
    destruct (extract_no_transaction_event env _ _ _ E1) as [l1 [L1 F1]];
    apply filter_no_transaction_event in F1; simpl in L1.
  2:{ rewrite (bind_inr _ _ _ _ _ E1). simpl. rewrite L1. tx_log. split; [auto|]. split; discriminate. }
  rewrite (bind_inl _ _ _ _ _ E1).
  destruct (engine_connect env w1) as [[[]|x] w2] eqn:E2;
    destruct (emits_engine_connect
                (fun ev => is_transaction_event ev = false) env eq_refl
                _ _ _ E2) as [l2 [L2 F2]];
    apply filter_no_transaction_event in F2.
  2:{ rewrite (bind_inr _ _ _ _ _ E2). simpl. rewrite L2, L1. tx_log. split; [auto|]. split; discriminate. }
  rewrite (bind_inl _ _ _ _ _ E2).
  destruct (with_conn_begin (create_schema env) w2) as [[[]|x] w3] eqn:E3;
    destruct (with_conn_begin_log _ _ _ _ _
                (create_schema_no_transaction_event env) E3) as [l3 [F3 L3]];
    apply filter_no_transaction_event in F3.
  2:{ rewrite (bind_inr _ _ _ _ _ E3). simpl. rewrite L3, L2, L1. tx_log.
      split; [auto|]. split; discriminate. }
  rewrite (bind_inl _ _ _ _ _ E3).
  match goal with
  | |- context [bind (with_conn_begin ?b) _ w3] =>
      destruct (with_conn_begin b w3) as [[[]|x] w4] eqn:E4;
      destruct (with_conn_begin_log _ _ _ _ _
                  (load_and_transform_no_transaction_event env dataframes) E4)
        as [l4 [F4 L4]];
      apply filter_no_transaction_event in F4
  end.
  2:{ rewrite (bind_inr _ _ _ _ _ E4). simpl. rewrite L4, L3, L2, L1. tx_log.
      split; [auto|]. split; discriminate. }
  rewrite (bind_inl _ _ _ _ _ E4). simpl. rewrite L4, L3, L2, L1. tx_log.
  split; [auto 6|]. split; reflexivity.
Qed.

(** ** The last line of the log *)

Lemma run_log_ends_with_finished env w w' :
  run env w = (inl tt, w') -> exists l', snd w' = l' ++ [info_finished].
Proof.
  unfold run. unfold bind at 1.
  destruct (extract_data_from_files env w) as [[dataframes|x] w1];
    [|discriminate].
  unfold bind at 1.
  destruct (engine_connect env w1) as [[[]|x] w2]; [|discriminate].
  unfold bind at 1.
  destruct (with_conn_begin (create_schema env) w2) as [[[]|x] w3];
    [|discriminate].
  unfold bind at 1.
  match goal with
  | |- context [with_conn_begin ?b w3] =>
      destruct (with_conn_begin b w3) as [[[]|x] w4]; [|discriminate]
  end.
  unfold logging. intros E. injection E as <-. simpl. eexists. reflexivity.
Qed.

(** [main] ends every run with one line that tells its outcome: the line
    of success when the run got through, and otherwise the line of
    failure with the error that stopped it, which goes no further. *)
Theorem log_ends_with_outcome (env : environment) (db : database) :
  last (snd (main env db)) info_starting
  = match fst (pipeline env (db, [])) with
    | inl _ => info_finished
    | inr x => error_pipeline_failed x
    end.
Proof.
  unfold main. destruct (pipeline env (db, [])) as [[[]|x] w] eqn:E; simpl.
  - unfold pipeline in E.
    rewrite (bind_inl (logging info_starting) _ (db, []) tt
               (db, [info_starting]) eq_refl) in E.
    destruct (run_log_ends_with_finished _ _ _ E) as [l' ->].
    apply last_last.
  - apply last_last.
Qed.

(** ** ORDER BY amount DESC *)





(** ** Staging and facts after a run *)

(** After a run that succeeds, each staging relation holds the rows of
    its file and nothing of earlier runs, no customer identifier comes
    twice in the customers relation, and each fact relation is what its
    statement selects from the staging relations and dimensions the run
    left: it holds no row of an earlier run. *)
Theorem run_leaves_current_batch_only
  (env : environment) (db : database) (l : list event) (w : world) :
  pipeline env (db, l) = (inl tt, w) ->
  app_events_json env = Some (stg_app_events_raw (fst w)) /\
  customers_csv env = Some (stg_customers_raw (fst w)) /\
  subscriptions_csv env = Some (stg_subscriptions_raw (fst w)) /\
  NoDup (map c_customer_id (stg_customers_raw (fst w))) /\
  analytics_fact_app_usage (fst w) = fact_app_usage_select (fst w) /\
  analytics_fact_subscription_events (fst w)
  = fact_subscription_events_select (fst w).
Proof.
  intros E.
  destruct (pipeline_success env db l w E)
    as (evs & cus & subs & H1 & H2 & H3 & Hok & ->).
  repeat split; try assumption.
  apply (run_succeeds_NoDup env), Hok.
Qed.

Lemma run_leaves_current_batch_only_witness :
  app_events_json sample_environment
  = Some (stg_app_events_raw
            (fst (snd (pipeline sample_environment (moved_database, []))))) /\
  customers_csv sample_environment
  = Some (stg_customers_raw
            (fst (snd (pipeline sample_environment (moved_database, []))))) /\
  subscriptions_csv sample_environment
  = Some (stg_subscriptions_raw
            (fst (snd (pipeline sample_environment (moved_database, []))))) /\
  NoDup (map c_customer_id
           (stg_customers_raw
              (fst (snd (pipeline sample_environment (moved_database, [])))))) /\
  analytics_fact_app_usage
    (fst (snd (pipeline sample_environment (moved_database, []))))
  = fact_app_usage_select
      (fst (snd (pipeline sample_environment (moved_database, [])))) /\
  analytics_fact_subscription_events
    (fst (snd (pipeline sample_environment (moved_database, []))))
  = fact_subscription_events_select
      (fst (snd (pipeline sample_environment (moved_database, [])))).
Proof.
  apply (run_leaves_current_batch_only sample_environment moved_database []
           (snd (pipeline sample_environment (moved_database, [])))).
  vm_compute. reflexivity.
Defined.

(** ** The schema bootstrap *)

(** [create_schema] sends the schema statements only when it could read
    the schema file: without the file nothing reaches the server; a
    refusal of the statements is logged and raised again; otherwise the
    schema is there and the rows of every relation are as before. *)
Theorem create_schema_outcomes (env : environment) (db : database) (l : list event) :
  create_schema env (db, l)
  = if schema_sql env
    then
      if refuses env cmd_schema
      then (inr (SqlError cmd_schema),
            (db, l ++ [info_step 0; sql cmd_schema; error_failed_to_create_schema]))
      else (inl tt,
            (bootstrapped db,
             l ++ [info_step 0; sql cmd_schema; info_schema_created]))
    else (inr SchemaFileError,
          (db, l ++ [info_step 0; error_failed_to_create_schema])).
Proof.
  unfold create_schema, bind, logging, try_except_log, conn_execute, ret, raise.
  destruct (schema_sql env); simpl.
  - destruct (refuses env cmd_schema); simpl; rewrite <- !app_assoc; reflexivity.
  - rewrite <- !app_assoc. reflexivity.
Qed.
